(** * The stream-relay service of bak-server (src/services/websocketService.ts)

    A shallow embedding of [WebSocketService] (the FFmpeg relay version) and
    of the shutdown wiring of [BakCamerasServer] (src/index.ts).

    The service is event driven.  Every callback the source registers becomes
    a state transformer; the runtime (the [ws] library, Node's child_process
    module, timers, [Date.now], [uuidv4], [JSON.parse]) is the environment and
    supplies the events and their payloads.

    - [this.clients] is a [Map<string, ClientConnection>] holding references:
      it is a [gmap string nat] from ids to locations of client objects.
      The per-object logs below make the visiting order of [forEach]
      unobservable, so the insertion order of the map is not modelled.
    - Client objects are mutated through aliases (the closures created in
      [createFFmpegProcess] and the force-kill timer keep the object after it
      left the map), so they live in a store [heap], addressed by location.
    - [ChildProcess] objects live in a second store [procs]. *)

From Stdlib Require Import ZArith List Bool String Ascii Lia QArith Qround.
From stdpp Require Import gmap strings list fin_maps.

Open Scope Z_scope.

(** ** Data *)

(** A Node [Buffer]: its bytes.  A JavaScript string is modelled by the
    UTF-8 bytes the [ws] library decoded it from, so [Buffer.from(string)]
    is [list_byte_of_string]. *)
Definition Buffer := list Byte.byte.

(** [ws.readyState] *)
Inductive ReadyState := CONNECTING | OPEN | CLOSING | CLOSED.

Definition is_open (st : ReadyState) : bool :=
  match st with OPEN => true | _ => false end.

(** JSON values, as produced by [JSON.parse] and consumed by
    [JSON.stringify]. *)
#[local] Unset Elimination Schemes.
Inductive JsValue :=
| JNull
| JBool (b : bool)
| JNum (n : Z)
| JStr (s : string)
| JArr (items : list JsValue)
| JObj (fields : list (string * JsValue)).
#[local] Set Elimination Schemes.

(** Property read [o[k]] on an object literal: [None] is [undefined]. *)
Fixpoint js_field (k : string) (fields : list (string * JsValue)) : option JsValue :=
  match fields with
  | [] => None
  | (k', v) :: rest => if String.eqb k k' then Some v else js_field k rest
  end.

(** [message.type === t].  [None] means the property read throws (a
    TypeError on [null]); every other primitive has no [type] property. *)
Definition js_type_is (t : string) (message : JsValue) : option bool :=
  match message with
  | JNull => None
  | JObj fields =>
      match js_field "type" fields with
      | Some (JStr s) => Some (String.eqb s t)
      | _ => Some false
      end
  | _ => Some false
  end.

(** A frame on the wire towards the client.  [FText v] is the text frame
    carrying [JSON.stringify(v)]; [FBinary b] a binary frame. *)
Inductive Frame :=
| FText (payload : JsValue)
| FBinary (chunk : Buffer).

(** [WebSocket.Data].  The service keeps the default binary type, so the
    fragment-array variant never reaches the handler. *)
Inductive WsData :=
| DString (s : string)
| DBuffer (b : Buffer)
| DArrayBuffer (b : Buffer).

(** [Buffer.isBuffer(data) ? data : Buffer.from(data)] *)
Definition toBuffer (data : WsData) : Buffer :=
  match data with
  | DString s => list_byte_of_string s
  | DBuffer b => b
  | DArrayBuffer b => b
  end.

(** A frame on the wire from the client, and what the [ws] library hands to
    a 'message' listener for it.  The service is written against the API of
    ws 8 (its 'close' listeners take the reason as a [Buffer]); since that
    release the listener receives every message, text or binary, as a
    [Buffer] of the payload bytes, and the kind of the frame only in a
    second argument [isBinary], which the listeners of this service do not
    take. *)
Inductive InboundFrame :=
| TextFrame (text : string)
| BinaryFrame (payload : Buffer).

Definition message_data (f : InboundFrame) : WsData :=
  match f with
  | TextFrame text => DBuffer (list_byte_of_string text)
  | BinaryFrame payload => DBuffer payload
  end.

(** The part of a [WebSocket] object the service observes or drives. *)
Record WebSocket := mkWs {
  readyState : ReadyState;
  sent : list Frame;        (* frames handed to [send], oldest first *)
  pings : nat;              (* number of [ping()] calls that went out *)
  terminated : bool         (* [terminate()] was called *)
}.

Inductive Signal := SIGTERM | SIGKILL.

(** The part of a [ChildProcess] object the service observes or drives.
    [owner] is the client object captured by the closures the service
    attaches to the process. *)
Record ChildProcess := mkProc {
  owner : nat;
  killed : bool;                (* [.killed]: a signal was delivered by [kill] *)
  running : bool;               (* the process handle is still there *)
  stdin_destroyed : bool;       (* [.stdin.destroyed] *)
  stdin_written : list Buffer;  (* chunks handed to [stdin.write], oldest first *)
  signals : list Signal         (* signals delivered, oldest first *)
}.

Record ClientConnection := mkClient {
  id : string;
  ws : WebSocket;
  isAlive : bool;
  lastPing : Z;
  ffmpegProcess : option nat    (* location in [procs]; [None] is undefined *)
}.

Record state := mkState {
  clients : gmap string nat;    (* this.clients *)
  heap : list ClientConnection; (* client objects *)
  procs : list ChildProcess;    (* ChildProcess objects *)
  timers : list nat;            (* pending force-kill timeouts: captured client *)
  pingInterval : bool;          (* the interval timer is armed *)
  wss_closed : bool             (* this.wss.close() was called *)
}.

Definition PING_INTERVAL : Z := 60000.
Definition PONG_TIMEOUT : Z := 30000.
Definition FORCE_KILL_DELAY : Z := 5000.

(** ** The runtime objects *)

Module Ws.

(** [ws.send(x)]; the callers wrap it in try/catch, so a send on a socket
    that is not open is logged and has no effect. *)
Definition send (f : Frame) (w : WebSocket) : WebSocket :=
  if is_open (readyState w)
  then mkWs (readyState w) (sent w ++ [f]) (pings w) (terminated w)
  else w.

(** [ws.ping()]; [None] when it throws. *)
Definition ping (w : WebSocket) : option WebSocket :=
  if is_open (readyState w)
  then Some (mkWs (readyState w) (sent w) (S (pings w)) (terminated w))
  else None.

(** [ws.close()] starts the closing handshake. *)
Definition close (w : WebSocket) : WebSocket :=
  match readyState w with
  | CLOSED => w
  | _ => mkWs CLOSING (sent w) (pings w) (terminated w)
  end.

(** [ws.terminate()] destroys the socket. *)
Definition terminate (w : WebSocket) : WebSocket :=
  match readyState w with
  | CLOSED => w
  | _ => mkWs CLOSING (sent w) (pings w) true
  end.

(** The library marks the socket closed before it emits ['close']. *)
Definition closed (w : WebSocket) : WebSocket :=
  mkWs CLOSED (sent w) (pings w) (terminated w).

(** The peer started the closing handshake. *)
Definition closing (w : WebSocket) : WebSocket :=
  match readyState w with
  | CLOSED => w
  | _ => mkWs CLOSING (sent w) (pings w) (terminated w)
  end.

Definition fresh : WebSocket := mkWs OPEN [] 0 false.

End Ws.

Module Proc.

(** [proc.kill(sig)]: delivers the signal and sets [.killed] while the
    handle is there; does nothing (returns false) once the process is gone. *)
Definition kill (sig : Signal) (p : ChildProcess) : ChildProcess :=
  if running p
  then mkProc (owner p) true (running p) (stdin_destroyed p)
              (stdin_written p) (signals p ++ [sig])
  else p.

(** [proc.stdin.write(b)] *)
Definition write (b : Buffer) (p : ChildProcess) : ChildProcess :=
  mkProc (owner p) (killed p) (running p) (stdin_destroyed p)
         (stdin_written p ++ [b]) (signals p).

(** Several writes in a row. *)
Definition write_all (bs : list Buffer) (p : ChildProcess) : ChildProcess :=
  fold_left (fun p b => write b p) bs p.

(** The runtime's bookkeeping when the process is gone: the handle is
    dropped and stdin destroyed, just before ['exit'] is emitted. *)
Definition gone (p : ChildProcess) : ChildProcess :=
  mkProc (owner p) (killed p) false true (stdin_written p) (signals p).

(** What [spawn] returns.  When the binary cannot be launched the object
    has no handle and a destroyed stdin by the time any callback of the
    service runs again, and ['error'] (not ['exit']) is emitted on it. *)
Definition spawned (launched : bool) (client : nat) : ChildProcess :=
  mkProc client false launched (negb launched) [] [].

End Proc.

(** ** Field updates *)

Definition set_ws (w : WebSocket) (c : ClientConnection) : ClientConnection :=
  mkClient (id c) w (isAlive c) (lastPing c) (ffmpegProcess c).

Definition set_alive (a : bool) (t : Z) (c : ClientConnection) : ClientConnection :=
  mkClient (id c) (ws c) a t (ffmpegProcess c).

Definition set_isAlive (a : bool) (c : ClientConnection) : ClientConnection :=
  mkClient (id c) (ws c) a (lastPing c) (ffmpegProcess c).

Definition set_ffmpegProcess (p : option nat) (c : ClientConnection) : ClientConnection :=
  mkClient (id c) (ws c) (isAlive c) (lastPing c) p.

Definition with_clients (m : gmap string nat) (s : state) : state :=
  mkState m (heap s) (procs s) (timers s) (pingInterval s) (wss_closed s).

Definition with_heap (h : list ClientConnection) (s : state) : state :=
  mkState (clients s) h (procs s) (timers s) (pingInterval s) (wss_closed s).

Definition with_procs (ps : list ChildProcess) (s : state) : state :=
  mkState (clients s) (heap s) ps (timers s) (pingInterval s) (wss_closed s).

Definition with_timers (ts : list nat) (s : state) : state :=
  mkState (clients s) (heap s) (procs s) ts (pingInterval s) (wss_closed s).

(** In-place mutation of the client object at [r]. *)
Definition update_client (r : nat) (f : ClientConnection -> ClientConnection)
    (s : state) : state :=
  match heap s !! r with
  | Some c => with_heap (<[r := f c]> (heap s)) s
  | None => s
  end.

Definition update_proc (pid : nat) (f : ChildProcess -> ChildProcess)
    (s : state) : state :=
  match procs s !! pid with
  | Some p => with_procs (<[pid := f p]> (procs s)) s
  | None => s
  end.

(** [this.clients.delete(clientId)] *)
Definition clients_delete (clientId : string) (s : state) : state :=
  with_clients (delete clientId (clients s)) s.

(** The state right after the constructor ran. *)
Definition init : state := mkState ∅ [] [] [] true false.

(** ** The service: [WebSocketService] *)

(** The two control messages the service builds. *)
Definition connection_msg (clientId : string) : JsValue :=
  JObj [("type"%string, JStr "connection");
        ("message"%string, JStr "Connected to Black & White Video Processing Server");
        ("clientId"%string, JStr clientId)].

Definition error_msg (message : string) : JsValue :=
  JObj [("type"%string, JStr "error"); ("message"%string, JStr message)].

(** What [spawn("ffmpeg", ...)] does: it throws, or it returns a process
    object whose binary was launched or not. *)
Inductive SpawnOutcome :=
| SpawnThrows
| SpawnReturns (launched : bool).

(** [sendToClient(clientId, data)] *)
Definition sendToClient (clientId : string) (data : JsValue) (s : state) : state :=
  match clients s !! clientId with
  | Some r =>
      match heap s !! r with
      | Some c =>
          if is_open (readyState (ws c))
          then update_client r (fun c => set_ws (Ws.send (FText data) (ws c)) c) s
          else s
      | None => s
      end
  | None => s
  end.

(** [sendToFFmpeg(clientId, videoBuffer)] *)
Definition sendToFFmpeg (clientId : string) (videoBuffer : Buffer) (s : state) : state :=
  match clients s !! clientId with
  | None => s
  | Some r =>
      match heap s !! r with
      | None => s
      | Some c =>
          match ffmpegProcess c with
          | None => s
          | Some pid =>
              match procs s !! pid with
              | None => s
              | Some p =>
                  if killed p then s
                  else if negb (stdin_destroyed p)
                       then update_proc pid (Proc.write videoBuffer) s
                       else s
              end
          end
      end
  end.

(** [createFFmpegProcess(clientId)]; the handlers it attaches to the process
    are [on_ffmpeg_stdout], [on_ffmpeg_error] and [on_ffmpeg_exit] below. *)
Definition createFFmpegProcess (clientId : string) (sp : SpawnOutcome) (s : state) : state :=
  match clients s !! clientId with
  | None => s
  | Some r =>
      match sp with
      | SpawnThrows =>
          sendToClient clientId
            (error_msg "Failed to initialize black & white video processing") s
      | SpawnReturns launched =>
          let pid := length (procs s) in
          update_client r (set_ffmpegProcess (Some pid))
            (with_procs (procs s ++ [Proc.spawned launched r]) s)
      end
  end.

(** [ffmpegProcess.stdout.on("data", chunk => ...)], closure over [client]. *)
Definition on_ffmpeg_stdout (client : nat) (chunk : Buffer) (s : state) : state :=
  match heap s !! client with
  | Some c =>
      if is_open (readyState (ws c)) && negb (Nat.eqb (length chunk) 0)
      then update_client client (fun c => set_ws (Ws.send (FBinary chunk) (ws c)) c) s
      else s
  | None => s
  end.

(** [ffmpegProcess.on("error", ...)], closure over [clientId]. *)
Definition on_ffmpeg_error (clientId : string) (s : state) : state :=
  sendToClient clientId (error_msg "FFmpeg process error occurred") s.

(** [ffmpegProcess.on("exit", ...)], closure over [client]. *)
Definition on_ffmpeg_exit (client : nat) (s : state) : state :=
  update_client client (set_ffmpegProcess None) s.

(** The body of the timeout armed by [cleanupClient], closure over [client]. *)
Definition force_kill (client : nat) (s : state) : state :=
  match heap s !! client with
  | Some c =>
      match ffmpegProcess c with
      | Some pid =>
          match procs s !! pid with
          | Some p => if killed p then s else update_proc pid (Proc.kill SIGKILL) s
          | None => s
          end
      | None => s
      end
  | None => s
  end.

(** [cleanupClient(clientId)] *)
Definition cleanupClient (clientId : string) (s : state) : state :=
  match clients s !! clientId with
  | Some r =>
      let s1 :=
        match heap s !! r with
        | Some c =>
            match ffmpegProcess c with
            | Some pid =>
                match procs s !! pid with
                | Some p =>
                    if killed p then s
                    else with_timers (timers s ++ [r])
                           (update_proc pid (Proc.kill SIGTERM) s)
                | None => s
                end
            | None => s
            end
        | None => s
        end in
      clients_delete clientId s1
  | None => s
  end.

(** [this.clients.forEach((client, clientId) => ...)]: every entry still in
    the map when its turn comes is visited once.  The callbacks of the
    service only ever delete the entry they are visiting. *)
Definition forEach (f : nat -> string -> state -> state) (s : state) : state :=
  fold_left
    (fun acc kv =>
       match clients acc !! kv.1 with
       | Some r => f r kv.1 acc
       | None => acc
       end)
    (map_to_list (clients s)) s.

(** The callback of [startPingInterval] for one entry. *)
Definition ping_client (now : Z) (r : nat) (clientId : string) (s : state) : state :=
  match heap s !! r with
  | None => s
  | Some c =>
      if negb (is_open (readyState (ws c))) then
        clients_delete clientId s
      else if now - lastPing c >? PONG_TIMEOUT then
        clients_delete clientId (update_client r (fun c => set_ws (Ws.terminate (ws c)) c) s)
      else if negb (isAlive c) then
        clients_delete clientId (update_client r (fun c => set_ws (Ws.terminate (ws c)) c) s)
      else
        match Ws.ping (ws c) with
        | Some w => update_client r (fun c => set_ws w (set_isAlive false c)) s
        | None => clients_delete clientId (update_client r (set_isAlive false) s)
        end
  end.

(** One firing of the interval armed by [startPingInterval]. *)
Definition ping_tick (now : Z) (s : state) : state :=
  if pingInterval s then forEach (ping_client now) s else s.

(** [ws.on("pong", ...)] *)
Definition on_pong (clientId : string) (now : Z) (s : state) : state :=
  match clients s !! clientId with
  | Some r => update_client r (set_alive true now) s
  | None => s
  end.

(** [disconnectClient(clientId)] *)
Definition disconnectClient (clientId : string) (s : state) : bool * state :=
  match clients s !! clientId with
  | Some r =>
      (true, clients_delete clientId
               (update_client r (fun c => set_ws (Ws.close (ws c)) c) s))
  | None => (false, s)
  end.

(** The callback [close()] runs for one entry. *)
Definition close_client (r : nat) (clientId : string) (s : state) : state :=
  let s1 := cleanupClient clientId s in
  match heap s1 !! r with
  | Some c =>
      if is_open (readyState (ws c))
      then update_client r (fun c => set_ws (Ws.close (ws c)) c) s1
      else s1
  | None => s1
  end.

(** [close()] *)
Definition close (s : state) : state :=
  let s1 := mkState (clients s) (heap s) (procs s) (timers s) false (wss_closed s) in
  let s2 := forEach close_client s1 in
  mkState (clients s2) (heap s2) (procs s2) (timers s2) (pingInterval s2) true.

(** [getConnectedClients()] *)
Definition getConnectedClients (s : state) : nat := size (clients s).

(** Events: one constructor per callback the service registers, carrying
    what the runtime passes in (and what [Date.now()], [uuidv4()] and
    [spawn] return during the callback).  Socket events name the client
    object whose socket emits them, process events the process. *)
Inductive event :=
| Connection (clientId : string) (now : Z) (sp : SpawnOutcome)
| Message (client : nat) (data : WsData) (now : Z)
| Pong (client : nat) (now : Z)
| WsClosing (client : nat)
| WsClose (client : nat)
| WsError (client : nat)
| FfmpegStdout (pid : nat) (chunk : Buffer)
| FfmpegStderr (pid : nat) (data : Buffer)
| FfmpegError (pid : nat)
| FfmpegExit (pid : nat)
| ForceKillTimeout (client : nat)
| PingTick (now : Z)
| DisconnectClient (clientId : string)
| Close.

(** Removes the first occurrence of [r]. *)
Fixpoint remove_first (r : nat) (l : list nat) : list nat :=
  match l with
  | [] => []
  | x :: rest => if Nat.eqb x r then rest else x :: remove_first r rest
  end.

Section Service.

(** [JSON.parse]; [None] when it throws. *)
Variable JSON_parse : string -> option JsValue.

(** The heartbeat test at the head of the message handler: the data is a
    string, it parses, and the parsed value has [type === "heartbeat"].  A
    parse error and a property read on [null] are both swallowed by the
    inner catch. *)
Definition is_heartbeat (data : WsData) : bool :=
  match data with
  | DString text =>
      match JSON_parse text with
      | Some message =>
          match js_type_is "heartbeat" message with
          | Some b => b
          | None => false
          end
      | None => false
      end
  | _ => false
  end.

(** [ws.on("message", data => ...)], closure over [clientId]. *)
Definition on_message (clientId : string) (data : WsData) (now : Z) (s : state) : state :=
  if is_heartbeat data then
    match clients s !! clientId with
    | Some r => update_client r (set_alive true now) s
    | None => s
    end
  else
    let videoBuffer := toBuffer data in
    if negb (Nat.eqb (length videoBuffer) 0)
    then sendToFFmpeg clientId videoBuffer s
    else s.

(** [this.wss.on("connection", (ws, req) => ...)]; the socket handed over by
    the library is open. *)
Definition on_connection (clientId : string) (now : Z) (sp : SpawnOutcome)
    (s : state) : state :=
  let r := length (heap s) in
  let client := mkClient clientId Ws.fresh true now None in
  let s1 := with_clients (<[clientId := r]> (clients s))
              (with_heap (heap s ++ [client]) s) in
  let s2 := createFFmpegProcess clientId sp s1 in
  sendToClient clientId (connection_msg clientId) s2.

(** The id captured by the socket callbacks of the client object [r]. *)
Definition id_of (r : nat) (s : state) : option string :=
  id <$> heap s !! r.

Definition step (e : event) (s : state) : state :=
  match e with
  | Connection clientId now sp => on_connection clientId now sp s
  | Message r data now =>
      match id_of r s with
      | Some clientId => on_message clientId data now s
      | None => s
      end
  | Pong r now =>
      match id_of r s with
      | Some clientId => on_pong clientId now s
      | None => s
      end
  | WsClosing r => update_client r (fun c => set_ws (Ws.closing (ws c)) c) s
  | WsClose r =>
      match id_of r s with
      | Some clientId =>
          cleanupClient clientId
            (update_client r (fun c => set_ws (Ws.closed (ws c)) c) s)
      | None => s
      end
  | WsError r =>
      match id_of r s with
      | Some clientId => cleanupClient clientId s
      | None => s
      end
  | FfmpegStdout pid chunk =>
      match procs s !! pid with
      | Some p => on_ffmpeg_stdout (owner p) chunk s
      | None => s
      end
  | FfmpegStderr pid data => s
  | FfmpegError pid =>
      match procs s !! pid with
      | Some p =>
          match id_of (owner p) s with
          | Some clientId => on_ffmpeg_error clientId s
          | None => s
          end
      | None => s
      end
  | FfmpegExit pid =>
      match procs s !! pid with
      | Some p => on_ffmpeg_exit (owner p) (update_proc pid Proc.gone s)
      | None => s
      end
  | ForceKillTimeout r =>
      if existsb (Nat.eqb r) (timers s)
      then force_kill r (with_timers (remove_first r (timers s)) s)
      else s
  | PingTick now => ping_tick now s
  | DisconnectClient clientId => (disconnectClient clientId s).2
  | Close => close s
  end.

(** The events are handled one at a time, each callback to completion. *)
Definition run (evs : list event) (s : state) : state :=
  fold_left (fun acc e => step e acc) evs s.

End Service.

(** ** Shutdown wiring: [BakCamerasServer.setupGracefulShutdown] *)

Inductive PendingExit :=
| OnServerClosed             (* the callback of [server.close]: exit(0) *)
| ForcedAfter (delay : Z).   (* [setTimeout(..., delay)]: exit(1) *)

Record BakCamerasServer := mkApp {
  wsService : option state;
  server : option bool;          (* the http server and whether it listens *)
  pending : list PendingExit;
  exitCode : option Z
}.

Definition FORCED_EXIT_DELAY : Z := 10000.

(** [gracefulShutdown(signal)] *)
Definition gracefulShutdown (app : BakCamerasServer) : BakCamerasServer :=
  let ws' := match wsService app with
             | Some svc => Some (close svc)
             | None => None
             end in
  match server app with
  | Some _ =>
      mkApp ws' (Some false)
            (pending app ++ [OnServerClosed; ForcedAfter FORCED_EXIT_DELAY])
            (exitCode app)
  | None => mkApp ws' None (pending app) (exitCode app)
  end.



(** ** Vocabulary of the statements *)

(** The text [{"type":"heartbeat"}] and the value [JSON.parse] yields on it. *)
Definition dquote : string := String (Ascii.ascii_of_nat 34) EmptyString.

Definition heartbeat_text : string :=
  ("{" ++ dquote ++ "type" ++ dquote ++ ":" ++ dquote ++ "heartbeat" ++ dquote ++ "}")%string.

Definition heartbeat_value : JsValue := JObj [("type"%string, JStr "heartbeat")].

(** A parser that accepts the heartbeat text and nothing else; it serves as
    a concrete instance of [JSON_parse] where one is needed. *)
Definition heartbeat_parser (text : string) : option JsValue :=
  if String.eqb text heartbeat_text then Some heartbeat_value else None.

(** The process [sendToFFmpeg] would write to for the client object [c]:
    present, not yet signalled, stdin not destroyed. *)
Definition writable_process (s : state) (c : ClientConnection) : option nat :=
  match ffmpegProcess c with
  | Some pid =>
      match procs s !! pid with
      | Some p => if killed p || stdin_destroyed p then None else Some pid
      | None => None
      end
  | None => None
  end.

(** Text frames by the [type] of their payload. *)
Definition frame_has_type (t : string) (f : Frame) : bool :=
  match f with
  | FText payload =>
      match js_type_is t payload with
      | Some b => b
      | None => false
      end
  | FBinary _ => false
  end.

Definition is_connection_frame : Frame -> bool := frame_has_type "connection".
Definition is_error_frame : Frame -> bool := frame_has_type "error".

Definition nonempty (b : Buffer) : bool := negb (Nat.eqb (length b) 0).

(** The inbound binary frames [frames], delivered one after the other on
    the socket of the client object [r]. *)
Definition binary_frames (r : nat) (frames : list (Buffer * Z)) : list event :=
  map (fun ft => Message r (DBuffer ft.1) ft.2) frames.

(** The output chunks [chunks], emitted one after the other by process [pid]. *)
Definition stdout_chunks (pid : nat) (chunks : list Buffer) : list event :=
  map (FfmpegStdout pid) chunks.

(** "Every inbound frame other than a heartbeat is forwarded unchanged to
    the subprocess input channel", for sessions that hold a process. *)
Definition every_other_frame_forwarded (parse : string -> option JsValue) : Prop :=
  forall s r c pid p data now,
    heap s !! r = Some c ->
    clients s !! id c = Some r ->
    ffmpegProcess c = Some pid ->
    procs s !! pid = Some p ->
    is_heartbeat parse data = false ->
    procs (step parse (Message r data now) s) !! pid
    = Some (Proc.write (toBuffer data) p).

(** "The N inbound binary frames are written to the subprocess input
    channel in the order received", for sessions that hold a process. *)
Definition all_frames_written_in_order (parse : string -> option JsValue) : Prop :=
  forall s r c pid p frames,
    heap s !! r = Some c ->
    clients s !! id c = Some r ->
    ffmpegProcess c = Some pid ->
    procs s !! pid = Some p ->
    stdin_written <$> procs (run parse (binary_frames r frames) s) !! pid
    = Some (stdin_written p ++ frames.*1).

(** The frames sent so far on the socket of the client object [r]. *)
Definition sent_of (r : nat) (s : state) : list Frame :=
  match heap s !! r with
  | Some c => sent (ws c)
  | None => []
  end.

(** "The connection frame is sent before any other frame reaches the
    client": it is the first frame on the socket of the new client object. *)
Definition connection_frame_first (parse : string -> option JsValue) : Prop :=
  forall s clientId now sp evs,
    head (sent_of (length (heap s))
            (run parse (Connection clientId now sp :: evs) s))
    = Some (FText (connection_msg clientId)).

(** How a client object may change over the life of the service: its id
    stays, its socket only gains frames that are not connection frames,
    and a cleared process field stays cleared. *)
Definition evolves (c c' : ClientConnection) : Prop :=
  id c' = id c /\
  (exists extra, sent (ws c') = sent (ws c) ++ extra /\
     Forall (fun f => is_connection_frame f = false) extra) /\
  (ffmpegProcess c = None -> ffmpegProcess c' = None).

(** The client object at [r] exists in [s'] if it does in [s], and evolved. *)
Definition object_step (r : nat) (s s' : state) : Prop :=
  forall c, heap s !! r = Some c ->
    exists c', heap s' !! r = Some c' /\ evolves c c'.

(** Entries of the registry only disappear. *)
Definition registry_shrinks (s s' : state) : Prop :=
  forall k, clients s' !! k = None \/ clients s' !! k = clients s !! k.

(** The event is a new connection that was given the id [clientId]. *)
Definition reuses_id (clientId : string) (e : event) : bool :=
  match e with
  | Connection k _ _ => String.eqb k clientId
  | _ => false
  end.

(** The event is an inbound frame on the socket of the client object [r]. *)
Definition is_message_on (r : nat) (e : event) : bool :=
  match e with
  | Message r' _ _ => Nat.eqb r' r
  | _ => false
  end.

(** The frames [spawn] failing synchronously puts before the welcome. *)
Definition spawn_error_frames (sp : SpawnOutcome) : list Frame :=
  match sp with
  | SpawnThrows =>
      [FText (error_msg "Failed to initialize black & white video processing")]
  | SpawnReturns _ => []
  end.

(** The client object and the processes a connection leaves behind. *)
Definition connected_client (clientId : string) (now : Z) (sp : SpawnOutcome)
    (s : state) : ClientConnection :=
  mkClient clientId
    (mkWs OPEN (spawn_error_frames sp ++ [FText (connection_msg clientId)]) 0 false)
    true now
    match sp with
    | SpawnThrows => None
    | SpawnReturns _ => Some (length (procs s))
    end.

Definition connected_procs (sp : SpawnOutcome) (s : state) : list ChildProcess :=
  match sp with
  | SpawnThrows => procs s
  | SpawnReturns launched => procs s ++ [Proc.spawned launched (length (heap s))]
  end.

(** The client objects the processes spawned so far were spawned for, in
    spawn order. *)
Definition owners (s : state) : list nat := owner <$> procs s.

(** The number of processes spawned so far for the client object [r]. *)
Definition spawned_for (r : nat) (s : state) : nat :=
  length (filter (fun o => o = r) (owners s)).

(** How a failed launch is reported after the connection handler returned:
    not at all when [spawn] threw (the catch block has reported it), by the
    ['error'] event of the new process object when [spawn] returned. *)
Definition launch_failure (sp : SpawnOutcome) (s : state) : list event :=
  match sp with
  | SpawnThrows => []
  | SpawnReturns _ => [FfmpegError (length (procs s))]
  end.

(** The frame the ['error'] handler of the process sends. *)
Definition async_error_frames (sp : SpawnOutcome) : list Frame :=
  match sp with
  | SpawnThrows => []
  | SpawnReturns _ => [FText (error_msg "FFmpeg process error occurred")]
  end.



(** ** Further operations of the service *)

(** [getClientIds()]: the keys of the registry.  The order in which the
    array lists them (insertion order) is not modelled. *)
Definition getClientIds (s : state) : list string := (map_to_list (clients s)).*1.

(** The callback of [broadcastToAll] for one entry; [message] is the text
    [JSON.stringify(data)] computed once before the loop. *)
Definition broadcast_client (message : Frame) (r : nat) (clientId : string)
    (s : state) : state :=
  match heap s !! r with
  | Some c =>
      if is_open (readyState (ws c))
      then update_client r (fun c => set_ws (Ws.send message (ws c)) c) s
      else s
  | None => s
  end.

(** [broadcastToAll(data)] *)
Definition broadcastToAll (data : JsValue) (s : state) : state :=
  forEach (broadcast_client (FText data)) s.

(** ** Shape of the states the service reaches *)

(** The process of the client object [r], if its field is set, has been
    signalled or is gone. *)
Definition process_settled (r : nat) (s : state) : Prop :=
  forall c pid p,
    heap s !! r = Some c -> ffmpegProcess c = Some pid -> procs s !! pid = Some p ->
    killed p = true \/ running p = false.

Definition well_formed (s : state) : Prop :=
  (* a registry entry leads to a client object that carries the key as id *)
  (forall k r, clients s !! k = Some r ->
     exists c, heap s !! r = Some c /\ id c = k) /\
  (* a process field leads to a process spawned for that client object *)
  (forall r c pid, heap s !! r = Some c -> ffmpegProcess c = Some pid ->
     exists p, procs s !! pid = Some p /\ owner p = r) /\
  (* a process belongs to an existing client object; the only signal it
     can have received is one SIGTERM, and then its killed flag is set *)
  (forall pid p, procs s !! pid = Some p ->
     (owner p < length (heap s))%nat /\
     signals p = if killed p then [SIGTERM] else []) /\
  (* no client object has had two processes *)
  (forall pid1 pid2 p1 p2, procs s !! pid1 = Some p1 -> procs s !! pid2 = Some p2 ->
     owner p1 = owner p2 -> pid1 = pid2) /\
  (* a force-kill timeout is only pending for an existing client object
     whose process is settled *)
  (forall r, r ∈ timers s -> (r < length (heap s))%nat /\ process_settled r s).

(** ** What the loops of the service do to one session *)

(** [broadcastToAll] on one client object. *)
Definition broadcast_to (message : Frame) (c : ClientConnection) : ClientConnection :=
  if is_open (readyState (ws c)) then set_ws (Ws.send message (ws c)) c else c.

(** The monitor keeps a session when its socket is open, its last refresh
    is at most [PONG_TIMEOUT] old and its alive flag is set. *)
Definition survives (now : Z) (c : ClientConnection) : bool :=
  is_open (readyState (ws c)) && negb (now - lastPing c >? PONG_TIMEOUT) && isAlive c.

(** The monitor on one client object: nothing for a socket that is not
    open, [terminate()] for a session it evicts, a probe and a cleared alive
    flag for a session it keeps. *)
Definition pinged (now : Z) (c : ClientConnection) : ClientConnection :=
  if negb (is_open (readyState (ws c))) then c
  else if survives now c
       then mkClient (id c)
              (mkWs (readyState (ws c)) (sent (ws c)) (S (pings (ws c)))
                    (terminated (ws c)))
              false (lastPing c) (ffmpegProcess c)
       else set_ws (Ws.terminate (ws c)) c.

(** The client object [r] is in the registry. *)
Definition registered (r : nat) (s : state) : Prop :=
  exists k, clients s !! k = Some r.

(** ** The earlier services of the same file *)

(** The mock detections of the first [WebSocketService] (the one that
    echoes chunks).  [Math.random()] is the environment: [rand n] is the
    [n]-th double it returns during one call, as the rational it denotes.
    The products with 4 and with 8 are exact in binary floating point, so
    [Qfloor] of the rational product is what [Math.floor] returns.  The box
    and the confidence are doubles computed from further draws; the record
    keeps those draws. *)
Module Mock.

Record DetectionResult := mkDetection {
  det_id : Z;
  label : string;
  box : Q * Q * Q * Q;   (* the draws scaled into x, y, width and height *)
  confidence : Q         (* the draw scaled into the confidence *)
}.

Definition labels : list string :=
  ["person"; "car"; "bicycle"; "dog"; "cat"; "bottle"; "laptop"; "phone"]%string.

(** [labels[i] || 'object'] *)
Definition label_or_object (i : Z) : string :=
  match (if (i <? 0)%Z then None else labels !! Z.to_nat i) with
  | Some l => if String.eqb l "" then "object"%string else l
  | None => "object"%string
  end.

(** The loop body, [n] more times, for the index [i], with [next] draws
    already used. *)
Fixpoint detections_from (rand : nat -> Q) (next : nat) (i : Z) (n : nat)
    : list DetectionResult :=
  match n with
  | O => []
  | S n' =>
      mkDetection (i + 1)
        (label_or_object (Qfloor (rand next * inject_Z (Z.of_nat (length labels)))))
        (rand (next + 1)%nat, rand (next + 2)%nat, rand (next + 3)%nat,
         rand (next + 4)%nat)
        (rand (next + 5)%nat)
      :: detections_from rand (next + 6) (i + 1) n'
  end.

(** [generateMockDetections()] *)
Definition generateMockDetections (rand : nat -> Q) : list DetectionResult :=
  let numDetections := Qfloor (rand 0%nat * 4) in
  detections_from rand 1 0 (Z.to_nat numDetections).

End Mock.

(** [SimpleVideoProcessor]: the service that buffers chunks and echoes
    them back five at a time. *)
Module Simple.

Record Client := mkClient {
  id : string;
  ws : WebSocket;
  isAlive : bool;
  lastPing : Z;
  videoBuffer : list Buffer;
  ffmpegProcess : option nat
}.

Record state := mkState {
  clients : gmap string nat;   (* this.clients *)
  heap : list Client           (* client objects *)
}.

Definition update_client (r : nat) (f : Client -> Client) (s : state) : state :=
  match heap s !! r with
  | Some c => mkState (clients s) (<[r := f c]> (heap s))
  | None => s
  end.

(** [client.videoBuffer.push(videoBuffer)] *)
Definition push (b : Buffer) (c : Client) : Client :=
  mkClient (id c) (ws c) (isAlive c) (lastPing c) (videoBuffer c ++ [b])
           (ffmpegProcess c).

(** The body of [processVideoBuffer] on the client object it found:
    concatenate, send if the socket is open, clear the buffer. *)
Definition flush (c : Client) : Client :=
  mkClient (id c)
    (if is_open (readyState (ws c))
     then Ws.send (FBinary (concat (videoBuffer c))) (ws c)
     else ws c)
    (isAlive c) (lastPing c) [] (ffmpegProcess c).

(** [processVideoBuffer(clientId)] *)
Definition processVideoBuffer (clientId : string) (s : state) : state :=
  match clients s !! clientId with
  | None => s
  | Some r =>
      match heap s !! r with
      | None => s
      | Some c =>
          if Nat.eqb (length (videoBuffer c)) 0 then s
          else update_client r flush s
      end
  end.

(** [ws.on("message", ...)], closure over [clientId] and over the client
    object [client] created by the connection handler. *)
Definition on_message (client : nat) (clientId : string) (data : WsData)
    (s : state) : state :=
  let videoBuffer := toBuffer data in
  if negb (Nat.eqb (length videoBuffer) 0) then
    let s1 := update_client client (push videoBuffer) s in
    match heap s1 !! client with
    | Some c =>
        if (5 <=? length (Simple.videoBuffer c))%nat
        then processVideoBuffer clientId s1
        else s1
    | None => s1
    end
  else s.

(** The inbound frames [chunks], one after the other, on the socket of the
    client object [r]. *)
Definition messages (r : nat) (chunks : list WsData) (s : state) : state :=
  fold_left
    (fun acc data =>
       match heap acc !! r with
       | Some c => on_message r (id c) data acc
       | None => acc
       end)
    chunks s.

(** The bytes the client has been sent in binary frames, and the bytes
    still buffered. *)
Definition echoed (c : Client) : list Byte.byte :=
  concat (omap (fun f => match f with FBinary b => Some b | FText _ => None end)
               (sent (ws c))).

Definition buffered (c : Client) : list Byte.byte := concat (videoBuffer c).

(** The bytes of the frames [chunks], and how many of them are not empty. *)
Definition bytes_of (chunks : list WsData) : list Byte.byte :=
  concat (toBuffer <$> chunks).

Definition count_nonempty (chunks : list WsData) : nat :=
  length (filter (fun d => nonempty (toBuffer d) = true) chunks).

End Simple.

(** * Properties *)

(** ** Store lemmas *)

Lemma update_client_clients r f s : clients (update_client r f s) = clients s.
Proof. unfold update_client. by destruct (heap s !! r). Qed.

Lemma update_client_procs r f s : procs (update_client r f s) = procs s.
Proof. unfold update_client. by destruct (heap s !! r). Qed.

Lemma update_client_timers r f s : timers (update_client r f s) = timers s.
Proof. unfold update_client. by destruct (heap s !! r). Qed.

Lemma update_client_pingInterval r f s :
  pingInterval (update_client r f s) = pingInterval s.
Proof. unfold update_client. by destruct (heap s !! r). Qed.

Lemma update_client_length r f s :
  length (heap (update_client r f s)) = length (heap s).
Proof.
  unfold update_client. destruct (heap s !! r); simpl; [|done].
  by rewrite length_insert.
Qed.

Lemma update_client_lookup_eq r f s :
  heap (update_client r f s) !! r = f <$> heap s !! r.
Proof.
  unfold update_client. destruct (heap s !! r) as [c|] eqn:E; simpl.
  - rewrite list_lookup_insert_eq; [done|]. by eapply lookup_lt_Some.
  - by rewrite E.
Qed.

Lemma update_client_lookup_ne r r' f s :
  r <> r' -> heap (update_client r f s) !! r' = heap s !! r'.
Proof.
  intros Hne. unfold update_client. destruct (heap s !! r); simpl; [|done].
  by rewrite list_lookup_insert_ne.
Qed.

Lemma update_proc_clients pid f s : clients (update_proc pid f s) = clients s.
Proof. unfold update_proc. by destruct (procs s !! pid). Qed.

Lemma update_proc_heap pid f s : heap (update_proc pid f s) = heap s.
Proof. unfold update_proc. by destruct (procs s !! pid). Qed.

Lemma update_proc_timers pid f s : timers (update_proc pid f s) = timers s.
Proof. unfold update_proc. by destruct (procs s !! pid). Qed.

Lemma update_proc_length pid f s :
  length (procs (update_proc pid f s)) = length (procs s).
Proof.
  unfold update_proc. destruct (procs s !! pid); simpl; [|done].
  by rewrite length_insert.
Qed.

Lemma update_proc_lookup_eq pid f s :
  procs (update_proc pid f s) !! pid = f <$> procs s !! pid.
Proof.
  unfold update_proc. destruct (procs s !! pid) as [p|] eqn:E; simpl.
  - rewrite list_lookup_insert_eq; [done|]. by eapply lookup_lt_Some.
  - by rewrite E.
Qed.

Lemma update_proc_lookup_ne pid pid' f s :
  pid <> pid' -> procs (update_proc pid f s) !! pid' = procs s !! pid'.
Proof.
  intros Hne. unfold update_proc. destruct (procs s !! pid); simpl; [|done].
  by rewrite list_lookup_insert_ne.
Qed.

(** The fields of a client object an update of its socket leaves alone. *)
Lemma set_ws_ffmpegProcess w c : ffmpegProcess (set_ws w c) = ffmpegProcess c.
Proof. done. Qed.

Lemma set_ws_id w c : id (set_ws w c) = id c.
Proof. done. Qed.

(** ** [cleanupClient] *)

Lemma cleanupClient_unregistered clientId s :
  clients s !! clientId = None -> cleanupClient clientId s = s.
Proof. intros H. unfold cleanupClient. by rewrite H. Qed.

Lemma cleanupClient_clients clientId s :
  clients (cleanupClient clientId s) = delete clientId (clients s).
Proof.
  unfold cleanupClient. destruct (clients s !! clientId) as [r|] eqn:E.
  - destruct (heap s !! r) as [c|]; [|done].
    destruct (ffmpegProcess c) as [pid|]; [|done].
    destruct (procs s !! pid) as [p|]; [|done].
    destruct (killed p); [done|]. simpl. by rewrite update_proc_clients.
  - by rewrite delete_id.
Qed.

Lemma cleanupClient_heap clientId s : heap (cleanupClient clientId s) = heap s.
Proof.
  unfold cleanupClient. destruct (clients s !! clientId) as [r|]; [|done].
  destruct (heap s !! r) as [c|]; [|done].
  destruct (ffmpegProcess c) as [pid|]; [|done].
  destruct (procs s !! pid) as [p|]; [|done].
  destruct (killed p); [done|]. simpl. by rewrite update_proc_heap.
Qed.

(** A cleanup touches at most one process object, and only by delivering
    SIGTERM to it when it had not been signalled before. *)
Lemma cleanupClient_procs clientId s pid p :
  procs s !! pid = Some p ->
  procs (cleanupClient clientId s) !! pid = Some p \/
  (killed p = false /\
   procs (cleanupClient clientId s) !! pid = Some (Proc.kill SIGTERM p)).
Proof.
  intros Hp. unfold cleanupClient.
  destruct (clients s !! clientId) as [r|]; [|by left].
  destruct (heap s !! r) as [c|]; [|by left].
  destruct (ffmpegProcess c) as [pid'|]; [|by left].
  destruct (procs s !! pid') as [p'|] eqn:Hp'; [|by left].
  destruct (killed p') eqn:Hk; [by left|]. simpl.
  destruct (decide (pid' = pid)) as [->|Hne].
  - right. rewrite update_proc_lookup_eq, Hp. simpl. split; [congruence|done].
  - left. by rewrite update_proc_lookup_ne.
Qed.

Lemma kill_signals sig p :
  signals (Proc.kill sig p) = signals p \/
  signals (Proc.kill sig p) = signals p ++ [sig].
Proof. unfold Proc.kill. destruct (running p); [by right|by left]. Qed.

(** C4. Teardown is idempotent: a second [cleanupClient] for the same id
    leaves the state the first one produced untouched (it finds no entry,
    so it neither signals nor fails); the first call removes the id from the
    registry, and the two calls together deliver at most one termination
    signal to any subprocess. *)
Theorem cleanupClient_idempotent (clientId : string) (s : state) :
  cleanupClient clientId (cleanupClient clientId s) = cleanupClient clientId s /\
  clients (cleanupClient clientId s) = delete clientId (clients s) /\
  clients (cleanupClient clientId s) !! clientId = None /\
  (forall pid p, procs s !! pid = Some p ->
     exists p', procs (cleanupClient clientId (cleanupClient clientId s)) !! pid = Some p' /\
       (signals p' = signals p \/ signals p' = signals p ++ [SIGTERM])).
Proof.
  assert (Hgone : clients (cleanupClient clientId s) !! clientId = None).
  { rewrite cleanupClient_clients. apply lookup_delete_eq. }
  assert (Hidem : cleanupClient clientId (cleanupClient clientId s)
                  = cleanupClient clientId s).
  { by apply cleanupClient_unregistered. }
  repeat split; [done | apply cleanupClient_clients | done |].
  intros pid p Hp. rewrite Hidem.
  destruct (cleanupClient_procs clientId s pid p Hp) as [H|[_ H]].
  - exists p. split; [done|by left].
  - exists (Proc.kill SIGTERM p). split; [done|]. apply kill_signals.
Qed.

(** ** [disconnectClient] *)

(** C10. [disconnectClient(id)] returns true exactly when the id was
    registered; it then removes the id, and otherwise leaves the state as it
    was.  In both cases no process object is touched (no signal is sent)
    and the [ffmpegProcess] field of every client object is unchanged. *)
Theorem disconnectClient_frame (clientId : string) (s : state) :
  ((disconnectClient clientId s).1 = true <-> is_Some (clients s !! clientId)) /\
  (is_Some (clients s !! clientId) ->
     clients (disconnectClient clientId s).2 = delete clientId (clients s)) /\
  (clients s !! clientId = None -> disconnectClient clientId s = (false, s)) /\
  procs (disconnectClient clientId s).2 = procs s /\
  timers (disconnectClient clientId s).2 = timers s /\
  (forall r, ffmpegProcess <$> heap (disconnectClient clientId s).2 !! r
             = ffmpegProcess <$> heap s !! r).
Proof.
  unfold disconnectClient.
  destruct (clients s !! clientId) as [r|] eqn:E; simpl.
  - split; [split; eauto|].
    split; [intros _; by rewrite update_client_clients|].
    split; [done|].
    split; [by rewrite update_client_procs|].
    split; [by rewrite update_client_timers|].
    intros r'. destruct (decide (r = r')) as [->|Hne].
    + rewrite update_client_lookup_eq. by destruct (heap s !! r').
    + by rewrite update_client_lookup_ne.
  - split; [split; [done|by intros [? ?]]|].
    split; [by intros [? ?]|]. done.
Qed.

(** ** The liveness monitor *)

(** Induction over the visits of [forEach]. *)
Lemma forEach_invariant (P : state -> Prop) f s :
  P s ->
  (forall r clientId acc, P acc -> clients acc !! clientId = Some r -> P (f r clientId acc)) ->
  P (forEach f s).
Proof.
  intros Hs Hstep. unfold forEach.
  generalize (map_to_list (clients s)). intros l. revert s Hs.
  induction l as [|kv l IH]; intros s Hs; simpl; [done|].
  apply IH. destruct (clients s !! kv.1) eqn:E; [|done]. by apply Hstep.
Qed.

(** The monitor never touches a process object: whatever it decides about
    a session, no signal is sent and no process field changes. *)
Lemma ping_client_procs now r clientId s :
  procs (ping_client now r clientId s) = procs s.
Proof.
  unfold ping_client. destruct (heap s !! r) as [c|]; [|done].
  destruct (negb (is_open (readyState (ws c)))); [done|].
  destruct (now - lastPing c >? PONG_TIMEOUT);
    [simpl; by rewrite update_client_procs|].
  destruct (negb (isAlive c)); [simpl; by rewrite update_client_procs|].
  destruct (Ws.ping (ws c)); simpl; by rewrite update_client_procs.
Qed.

Lemma ping_tick_procs now s : procs (ping_tick now s) = procs s.
Proof.
  unfold ping_tick. destruct (pingInterval s); [|done].
  apply (forEach_invariant (fun acc => procs acc = procs s)); [done|].
  intros r clientId acc Hacc _. by rewrite ping_client_procs.
Qed.

Lemma ping_client_timers now r clientId s :
  timers (ping_client now r clientId s) = timers s.
Proof.
  unfold ping_client. destruct (heap s !! r) as [c|]; [|done].
  destruct (negb (is_open (readyState (ws c)))); [done|].
  destruct (now - lastPing c >? PONG_TIMEOUT);
    [simpl; by rewrite update_client_timers|].
  destruct (negb (isAlive c)); [simpl; by rewrite update_client_timers|].
  destruct (Ws.ping (ws c)); simpl; by rewrite update_client_timers.
Qed.

(** The timeout branch of the monitor, for an open socket: the entry is
    dropped and the socket destroyed, whatever the alive flag says. *)
Lemma ping_client_timeout now r clientId s c :
  heap s !! r = Some c ->
  readyState (ws c) = OPEN ->
  now - lastPing c > PONG_TIMEOUT ->
  ping_client now r clientId s
  = clients_delete clientId
      (update_client r (fun c => set_ws (Ws.terminate (ws c)) c) s).
Proof.
  intros Hc Hopen Hlate. unfold ping_client. rewrite Hc, Hopen. simpl.
  destruct (now - lastPing c >? PONG_TIMEOUT) eqn:E; [done|]. lia.
Qed.

(** A pong that arrives [d] ms after the probe of the tick at [t], with
    [d] inside the timeout window, still leaves the session [PING_INTERVAL - d]
    ms old at the next tick, which is beyond [PONG_TIMEOUT]. *)
Lemma prompt_pong_is_late_at_next_tick (t d : Z) :
  0 <= d < PONG_TIMEOUT ->
  (t + PING_INTERVAL) - (t + d) > PONG_TIMEOUT.
Proof. unfold PONG_TIMEOUT, PING_INTERVAL. lia. Qed.

(** C1. A session evicted by the monitor keeps its subprocess: here a
    session with a launched transcoder misses the probe of the first tick
    and is evicted at the second; the socket is destroyed and the id leaves
    the registry, but the process has received no signal and is still
    running, the ['close'] event of the destroyed socket finds no entry to
    clean up, and even the service's [close()] no longer reaches it. *)
Theorem monitor_eviction_leaks_subprocess (parse : string -> option JsValue) :
  let evicted := run parse [Connection "c1" 40000 (SpawnReturns true);
                            PingTick 60000; PingTick 120000] init in
  let final := run parse [WsClose 0%nat; Close] evicted in
  clients evicted = ∅ /\
  (terminated ∘ ws <$> heap evicted !! 0%nat) = Some true /\
  procs evicted = [mkProc 0 false true false [] []] /\
  procs final = [mkProc 0 false true false [] []] /\
  timers final = [].
Proof. vm_compute. repeat split; reflexivity. Qed.

(** C2. A client that answers the probe promptly is evicted all the same:
    the session is probed at the tick of 60000, its pong arrives 5 ms later
    (alive flag set, timestamp refreshed), and the tick of 120000 finds the
    timestamp 59995 ms old, more than [PONG_TIMEOUT], destroys the socket
    and drops the entry without sending a new probe. *)
Theorem prompt_pong_client_is_evicted (parse : string -> option JsValue) :
  let answered := run parse [Connection "c1" 40000 (SpawnReturns true);
                             PingTick 60000; Pong 0%nat 60005] init in
  let next := step parse (PingTick 120000) answered in
  clients answered !! "c1"%string = Some 0%nat /\
  (isAlive <$> heap answered !! 0%nat) = Some true /\
  (lastPing <$> heap answered !! 0%nat) = Some 60005 /\
  (pings ∘ ws <$> heap answered !! 0%nat) = Some 1%nat /\
  clients next = ∅ /\
  (terminated ∘ ws <$> heap next !! 0%nat) = Some true /\
  (pings ∘ ws <$> heap next !! 0%nat) = Some 1%nat.
Proof. vm_compute. repeat split; reflexivity. Qed.

(** ** Inbound frames *)

Lemma sendToFFmpeg_writable clientId b s r c pid :
  clients s !! clientId = Some r ->
  heap s !! r = Some c ->
  writable_process s c = Some pid ->
  sendToFFmpeg clientId b s = update_proc pid (Proc.write b) s.
Proof.
  intros Hr Hc Hw. unfold sendToFFmpeg, writable_process in *. rewrite Hr, Hc.
  destruct (ffmpegProcess c) as [pid'|]; [|done].
  destruct (procs s !! pid') as [p|]; [|done].
  destruct (killed p), (stdin_destroyed p); simpl in *; congruence.
Qed.

Lemma sendToFFmpeg_unwritable clientId b s r c :
  clients s !! clientId = Some r ->
  heap s !! r = Some c ->
  writable_process s c = None ->
  sendToFFmpeg clientId b s = s.
Proof.
  intros Hr Hc Hw. unfold sendToFFmpeg, writable_process in *. rewrite Hr, Hc.
  destruct (ffmpegProcess c) as [pid'|]; [|done].
  destruct (procs s !! pid') as [p|]; [|done].
  destruct (killed p), (stdin_destroyed p); simpl in *; congruence.
Qed.

Lemma sendToFFmpeg_unregistered clientId b s :
  clients s !! clientId = None -> sendToFFmpeg clientId b s = s.
Proof. intros H. unfold sendToFFmpeg. by rewrite H. Qed.

Lemma nonempty_false (b : Buffer) : nonempty b = false <-> b = [].
Proof. unfold nonempty. destruct b; simpl; split; intros; congruence. Qed.

(** C3 (amended). On a registered session, every inbound frame other than
    a heartbeat is handed unchanged to [stdin.write] of the session's
    process when it is non-empty and that process is writable (present, not
    yet signalled, stdin not destroyed); it is dropped, with no effect at
    all, when it is empty or the session has no writable process.  Every
    binary frame, as the library delivers it, is such a frame. *)
Theorem other_frames_forwarded_or_dropped (parse : string -> option JsValue)
    (s : state) (r : nat) (c : ClientConnection) (now : Z) :
  heap s !! r = Some c ->
  clients s !! id c = Some r ->
  (forall data pid, is_heartbeat parse data = false ->
     nonempty (toBuffer data) = true ->
     writable_process s c = Some pid ->
     step parse (Message r data now) s
       = update_proc pid (Proc.write (toBuffer data)) s) /\
  (forall data, is_heartbeat parse data = false ->
     nonempty (toBuffer data) = false \/ writable_process s c = None ->
     step parse (Message r data now) s = s) /\
  (forall payload,
     is_heartbeat parse (message_data (BinaryFrame payload)) = false /\
     toBuffer (message_data (BinaryFrame payload)) = payload).
Proof.
  intros Hc Hr.
  assert (Hid : id_of r s = Some (id c)) by (unfold id_of; by rewrite Hc).
  split; [|split; [|done]].
  - intros data pid Hd Hne Hw. simpl. rewrite Hid. unfold on_message.
    rewrite Hd. unfold nonempty in Hne. rewrite Hne.
    by eapply sendToFFmpeg_writable.
  - intros data Hd Hcase. simpl. rewrite Hid. unfold on_message. rewrite Hd.
    destruct (negb (length (toBuffer data) =? 0)%nat) eqn:Hne; [|done].
    destruct Hcase as [Hempty|Hw].
    + unfold nonempty in Hempty. congruence.
    + by eapply sendToFFmpeg_unwritable.
Qed.

(** The theorem at a session with a running transcoder: a binary frame of
    one byte is written to the transcoder's stdin. *)
Lemma other_frames_forwarded_or_dropped_witness :
  let s := on_connection "c1" 0 (SpawnReturns true) init in
  step heartbeat_parser (Message 0%nat (message_data (BinaryFrame [Byte.x01])) 7) s
  = update_proc 0%nat (Proc.write [Byte.x01]) s.
Proof.
  intros s.
  exact (proj1 (other_frames_forwarded_or_dropped heartbeat_parser s 0%nat
                  (mkClient "c1" (mkWs OPEN [FText (connection_msg "c1")] 0 false)
                            true 0 (Some 0%nat))
                  7 eq_refl eq_refl)
               (message_data (BinaryFrame [Byte.x01])) 0%nat
               eq_refl eq_refl eq_refl).
Defined.

(** C3 (as stated) fails in two ways.  On a session with a running
    transcoder an empty binary frame is not handed to the process; and on a
    session whose transcoder has exited a non-empty binary frame goes
    nowhere.  Both frames are other than a heartbeat. *)
Lemma other_frames_can_be_dropped :
  let healthy := run heartbeat_parser [Connection "c1" 0 (SpawnReturns true)] init in
  let degraded := run heartbeat_parser
                    [Connection "c1" 0 (SpawnReturns true); FfmpegExit 0%nat] init in
  (is_heartbeat heartbeat_parser (DBuffer []) = false /\
   step heartbeat_parser (Message 0%nat (DBuffer []) 5) healthy = healthy) /\
  (is_heartbeat heartbeat_parser (DBuffer [Byte.x01]) = false /\
   step heartbeat_parser (Message 0%nat (DBuffer [Byte.x01]) 5) degraded = degraded) /\
  ~ every_other_frame_forwarded heartbeat_parser.
Proof.
  split; [split; reflexivity|]. split; [split; reflexivity|].
  intros H.
  specialize (H (run heartbeat_parser [Connection "c1" 0 (SpawnReturns true)] init)
                0%nat
                (mkClient "c1" (mkWs OPEN [FText (connection_msg "c1")] 0 false)
                          true 0 (Some 0%nat))
                0%nat (mkProc 0 false true false [] []) (DBuffer []) 5
                eq_refl eq_refl eq_refl eq_refl eq_refl).
  vm_compute in H. discriminate H.
Qed.

(** ** Order of the relay *)

Lemma write_all_fields bs p :
  owner (Proc.write_all bs p) = owner p /\
  killed (Proc.write_all bs p) = killed p /\
  running (Proc.write_all bs p) = running p /\
  stdin_destroyed (Proc.write_all bs p) = stdin_destroyed p /\
  signals (Proc.write_all bs p) = signals p /\
  stdin_written (Proc.write_all bs p) = stdin_written p ++ bs.
Proof.
  revert p. induction bs as [|b bs IH]; intros p; simpl.
  - by rewrite app_nil_r.
  - destruct (IH (Proc.write b p)) as (-> & -> & -> & -> & -> & ->). simpl.
    by rewrite <- app_assoc.
Qed.

Lemma write_all_snoc bs b p :
  Proc.write_all (bs ++ [b]) p = Proc.write b (Proc.write_all bs p).
Proof. unfold Proc.write_all. by rewrite fold_left_app. Qed.

Lemma binary_frame_not_heartbeat parse b : is_heartbeat parse (DBuffer b) = false.
Proof. done. Qed.

Lemma writable_process_update_proc s c pid' f :
  (forall p, killed (f p) = killed p /\ stdin_destroyed (f p) = stdin_destroyed p) ->
  writable_process (update_proc pid' f s) c = writable_process s c.
Proof.
  intros Hf. unfold writable_process. destruct (ffmpegProcess c) as [pid|]; [|done].
  destruct (decide (pid' = pid)) as [->|Hne].
  - rewrite update_proc_lookup_eq. destruct (procs s !! pid) as [p|]; [|done].
    simpl. by destruct (Hf p) as [-> ->].
  - by rewrite update_proc_lookup_ne.
Qed.

(** Inbound binary frames on a session with a writable process: the
    non-empty ones are appended to the write log, in order. *)
Lemma run_binary_frames parse frames : forall s r c pid p,
  heap s !! r = Some c ->
  clients s !! id c = Some r ->
  writable_process s c = Some pid ->
  procs s !! pid = Some p ->
  let s' := run parse (binary_frames r frames) s in
  heap s' = heap s /\ clients s' = clients s /\
  procs s' !! pid = Some (Proc.write_all (filter (fun b => nonempty b = true) frames.*1) p) /\
  (forall pid', pid' <> pid -> procs s' !! pid' = procs s !! pid').
Proof.
  induction frames as [|[b t] frames IH]; intros s r c pid p Hc Hr Hw Hp; simpl.
  - done.
  - assert (Hid : id_of r s = Some (id c)) by (unfold id_of; by rewrite Hc).
    rewrite Hid. unfold on_message. rewrite binary_frame_not_heartbeat. simpl.
    rewrite filter_cons. fold (nonempty b). destruct (nonempty b) eqn:Hb.
    + rewrite decide_True by done.
      erewrite sendToFFmpeg_writable by done.
      set (s1 := update_proc pid (Proc.write b) s).
      assert (Hh1 : heap s1 = heap s) by apply update_proc_heap.
      assert (Hc1 : clients s1 = clients s) by apply update_proc_clients.
      assert (Hp1 : procs s1 !! pid = Some (Proc.write b p)).
      { unfold s1. by rewrite update_proc_lookup_eq, Hp. }
      assert (Hw1 : writable_process s1 c = Some pid).
      { unfold s1. by rewrite writable_process_update_proc. }
      destruct (IH s1 r c pid (Proc.write b p)) as (IH1 & IH2 & IH3 & IH4);
        [by rewrite Hh1 | by rewrite Hc1 | done | done |].
      fold (run parse (binary_frames r frames) s1).
      split; [congruence|]. split; [congruence|]. split; [done|].
      intros pid' Hne. rewrite IH4 by done. unfold s1.
      by rewrite update_proc_lookup_ne.
    + rewrite decide_False by (by intros ?).
      by apply (IH s r c pid p).
Qed.

(** Output chunks of a process whose client has an open socket: the
    non-empty ones are sent as binary frames, in order. *)
Lemma run_stdout_chunks parse chunks : forall s pid p c,
  procs s !! pid = Some p ->
  heap s !! owner p = Some c ->
  readyState (ws c) = OPEN ->
  sent_of (owner p) (run parse (stdout_chunks pid chunks) s)
  = sent (ws c) ++ map FBinary (filter (fun b => nonempty b = true) chunks).
Proof.
  induction chunks as [|b chunks IH]; intros s pid p c Hp Hc Hopen; simpl.
  - unfold sent_of. by rewrite Hc, app_nil_r.
  - rewrite Hp. unfold on_ffmpeg_stdout. rewrite Hc, Hopen. simpl.
    rewrite filter_cons. fold (nonempty b). destruct (nonempty b) eqn:Hb.
    + rewrite decide_True by done.
      set (s1 := update_client _ _ s).
      fold (run parse (stdout_chunks pid chunks) s1).
      assert (Hc1 : heap s1 !! owner p
                    = Some (set_ws (Ws.send (FBinary b) (ws c)) c)).
      { unfold s1. by rewrite update_client_lookup_eq, Hc. }
      rewrite (IH s1 pid p (set_ws (Ws.send (FBinary b) (ws c)) c));
        [| unfold s1; by rewrite update_client_procs | done |].
      * simpl. unfold Ws.send. rewrite Hopen. simpl. by rewrite <- app_assoc.
      * simpl. unfold Ws.send. by rewrite Hopen.
    + rewrite decide_False by (by intros ?).
      by apply (IH s pid p c).
Qed.

Lemma concat_filter_nonempty (bs : list Buffer) :
  concat (filter (fun b => nonempty b = true) bs) = concat bs.
Proof.
  induction bs as [|b bs IH]; [done|]. rewrite filter_cons.
  destruct (nonempty b) eqn:Hb.
  - rewrite decide_True by done. simpl. by rewrite IH.
  - rewrite decide_False by (by intros ?). apply nonempty_false in Hb as ->.
    simpl. apply IH.
Qed.

(** C5 (amended). On a registered session whose process is writable, the
    non-empty frames of any sequence of inbound binary frames are handed to
    [stdin.write] in the order received, each with its bytes unchanged, and
    the empty ones are skipped; so the byte stream the process reads is the
    concatenation of all the frames in order.  Symmetrically, while the
    client's socket is open, the non-empty output chunks of the process are
    sent to the client as binary frames in the order emitted. *)
Theorem relay_preserves_order (parse : string -> option JsValue)
    (s : state) (r : nat) (c : ClientConnection) (pid : nat) (p : ChildProcess)
    (frames : list (Buffer * Z)) (chunks : list Buffer) :
  heap s !! r = Some c ->
  clients s !! id c = Some r ->
  writable_process s c = Some pid ->
  procs s !! pid = Some p ->
  owner p = r ->
  readyState (ws c) = OPEN ->
  (stdin_written <$> procs (run parse (binary_frames r frames) s) !! pid)
    = Some (stdin_written p ++ filter (fun b => nonempty b = true) frames.*1) /\
  ((fun p => concat (stdin_written p)) <$>
     procs (run parse (binary_frames r frames) s) !! pid)
    = Some (concat (stdin_written p) ++ concat frames.*1) /\
  sent_of r (run parse (stdout_chunks pid chunks) s)
    = sent (ws c) ++ map FBinary (filter (fun b => nonempty b = true) chunks).
Proof.
  intros Hc Hr Hw Hp Hown Hopen.
  destruct (run_binary_frames parse frames s r c pid p Hc Hr Hw Hp)
    as (_ & _ & Hprocs & _).
  destruct (write_all_fields (filter (fun b => nonempty b = true) frames.*1) p)
    as (_ & _ & _ & _ & _ & Hlog).
  split; [by rewrite Hprocs; simpl; rewrite Hlog|].
  split.
  - rewrite Hprocs. simpl. rewrite Hlog, concat_app.
    by rewrite concat_filter_nonempty.
  - subst r. by apply run_stdout_chunks.
Qed.

(** The theorem on a fresh session with a running transcoder: three
    inbound frames, the middle one empty, and two output chunks. *)
Lemma relay_preserves_order_witness :
  let s := on_connection "c1" 0 (SpawnReturns true) init in
  (stdin_written <$>
     procs (run heartbeat_parser
              (binary_frames 0 [([Byte.x01], 1); ([], 2); ([Byte.x02], 3)]) s) !! 0%nat)
    = Some [[Byte.x01]; [Byte.x02]] /\
  sent_of 0 (run heartbeat_parser (stdout_chunks 0 [[Byte.x03]; [Byte.x04]]) s)
    = [FText (connection_msg "c1"); FBinary [Byte.x03]; FBinary [Byte.x04]].
Proof.
  intros s.
  pose proof (relay_preserves_order heartbeat_parser s 0%nat
                (mkClient "c1" (mkWs OPEN [FText (connection_msg "c1")] 0 false)
                          true 0 (Some 0%nat))
                0%nat (mkProc 0 false true false [] [])
                [([Byte.x01], 1); ([], 2); ([Byte.x02], 3)]
                [[Byte.x03]; [Byte.x04]]
                eq_refl eq_refl eq_refl eq_refl eq_refl eq_refl) as (H1 & _ & H3).
  split; [exact H1 | exact H3].
Defined.

(** C5 (as stated) fails: of the three frames below, received by a session
    with a running transcoder, only two are written, the empty one being
    skipped; and a session whose transcoder has exited writes none of the
    frames it receives. *)
Lemma not_all_frames_are_written :
  let healthy := run heartbeat_parser [Connection "c1" 0 (SpawnReturns true)] init in
  let degraded := run heartbeat_parser
                    [Connection "c1" 0 (SpawnReturns true); FfmpegExit 0%nat] init in
  (stdin_written <$>
     procs (run heartbeat_parser
              (binary_frames 0 [([Byte.x01], 1); ([], 2); ([Byte.x02], 3)]) healthy)
       !! 0%nat) = Some [[Byte.x01]; [Byte.x02]] /\
  procs (run heartbeat_parser
           (binary_frames 0 [([Byte.x01], 1); ([Byte.x02], 2)]) degraded)
    = procs degraded /\
  ~ all_frames_written_in_order heartbeat_parser.
Proof.
  split; [reflexivity|]. split; [reflexivity|].
  intros H.
  specialize (H (run heartbeat_parser [Connection "c1" 0 (SpawnReturns true)] init)
                0%nat
                (mkClient "c1" (mkWs OPEN [FText (connection_msg "c1")] 0 false)
                          true 0 (Some 0%nat))
                0%nat (mkProc 0 false true false [] [])
                [([Byte.x01], 1); ([], 2); ([Byte.x02], 3)]
                eq_refl eq_refl eq_refl eq_refl).
  vm_compute in H. discriminate H.
Qed.

(** ** Shutdown *)

(** When every visit deletes the entry it is visiting, [forEach] empties
    the map. *)
Lemma forEach_deletes_all f s :
  (forall r clientId acc, clients acc !! clientId = Some r ->
     clients (f r clientId acc) = delete clientId (clients acc)) ->
  clients (forEach f s) = ∅.
Proof.
  intros Hdel. unfold forEach.
  assert (Hcover : forall k, is_Some (clients s !! k) ->
            k ∈ (map_to_list (clients s)).*1).
  { intros k [r Hk]. apply list_elem_of_fmap. exists (k, r).
    split; [done|]. by apply elem_of_map_to_list. }
  revert Hcover. generalize (map_to_list (clients s)). intros l. revert s.
  induction l as [|kv l IH]; intros s Hcover; simpl.
  - apply map_eq. intros k. rewrite lookup_empty.
    destruct (clients s !! k) eqn:E; [|done].
    specialize (Hcover k (mk_is_Some _ _ E)). by apply elem_of_nil in Hcover.
  - apply IH. intros k Hk.
    destruct (clients s !! kv.1) as [r|] eqn:E.
    + rewrite (Hdel _ _ _ E) in Hk.
      destruct (decide (kv.1 = k)) as [Heq|Hne].
      * rewrite Heq, lookup_delete_eq in Hk. by destruct Hk.
      * rewrite lookup_delete_ne in Hk by done.
        specialize (Hcover k Hk). simpl in Hcover.
        apply elem_of_cons in Hcover as [->|]; done.
    + specialize (Hcover k Hk). simpl in Hcover.
      apply elem_of_cons in Hcover as [->|]; [|done].
      rewrite E in Hk. by destruct Hk.
Qed.

Lemma close_client_clients r clientId s :
  clients (close_client r clientId s) = delete clientId (clients s).
Proof.
  unfold close_client. destruct (heap (cleanupClient clientId s) !! r) as [c|].
  - destruct (is_open (readyState (ws c)));
      [rewrite update_client_clients|]; apply cleanupClient_clients.
  - apply cleanupClient_clients.
Qed.

Lemma close_client_procs r clientId s :
  procs (close_client r clientId s) = procs (cleanupClient clientId s).
Proof.
  unfold close_client. destruct (heap (cleanupClient clientId s) !! r) as [c|]; [|done].
  destruct (is_open (readyState (ws c))); [apply update_client_procs|done].
Qed.

Lemma cleanupClient_pingInterval clientId s :
  pingInterval (cleanupClient clientId s) = pingInterval s.
Proof.
  unfold cleanupClient. destruct (clients s !! clientId) as [r|]; [|done].
  destruct (heap s !! r) as [c|]; [|done].
  destruct (ffmpegProcess c) as [pid|]; [|done].
  destruct (procs s !! pid) as [p|]; [|done].
  destruct (killed p); [done|]. simpl. unfold update_proc.
  by destruct (procs s !! pid).
Qed.

Lemma close_client_pingInterval r clientId s :
  pingInterval (close_client r clientId s) = pingInterval s.
Proof.
  unfold close_client. destruct (heap (cleanupClient clientId s) !! r) as [c|].
  - destruct (is_open (readyState (ws c)));
      [rewrite update_client_pingInterval|]; apply cleanupClient_pingInterval.
  - apply cleanupClient_pingInterval.
Qed.

(** What one visit of [close()] does to any client object: the process
    field stays, and the socket is not open afterwards if it was not open
    before or if the visit is the one of this object. *)
Lemma close_client_heap r clientId s r0 c0 :
  heap s !! r0 = Some c0 ->
  exists c1, heap (close_client r clientId s) !! r0 = Some c1 /\
    ffmpegProcess c1 = ffmpegProcess c0 /\
    (readyState (ws c0) <> OPEN \/ r = r0 -> readyState (ws c1) <> OPEN).
Proof.
  intros H0. unfold close_client. rewrite cleanupClient_heap.
  destruct (heap s !! r) as [c|] eqn:Hc.
  - destruct (is_open (readyState (ws c))) eqn:Hopen.
    + destruct (decide (r = r0)) as [->|Hne].
      * rewrite update_client_lookup_eq, cleanupClient_heap, H0. simpl.
        eexists; split; [reflexivity|]. split; [done|]. intros _.
        unfold Ws.close. destruct (readyState (ws c0)) eqn:E; simpl; congruence.
      * rewrite update_client_lookup_ne, cleanupClient_heap by done.
        exists c0. split; [done|]. split; [done|]. intros [?|?]; done.
    + rewrite cleanupClient_heap. exists c0. split; [done|]. split; [done|].
      intros [?| ->]; [done|]. rewrite H0 in Hc. injection Hc as ->.
      intros Heq. by rewrite Heq in Hopen.
  - rewrite cleanupClient_heap. exists c0. split; [done|]. split; [done|].
    intros [?| ->]; [done|]. congruence.
Qed.




Lemma close_pingInterval s : pingInterval (close s) = false.
Proof.
  unfold close. simpl.
  apply (forEach_invariant (fun acc => pingInterval acc = false)); [done|].
  intros r k acc Hacc _. by rewrite close_client_pingInterval.
Qed.







(** ** Accepting a connection *)

Lemma update_client_last (h : list ClientConnection) c f s :
  heap s = h ++ [c] ->
  update_client (length h) f s = with_heap (h ++ [f c]) s.
Proof.
  intros Hh. unfold update_client. rewrite Hh.
  rewrite list_lookup_middle by done. f_equal.
  rewrite insert_app_r_alt by lia. by rewrite Nat.sub_diag.
Qed.

(** The connection handler, in closed form. *)
Lemma on_connection_eq parse clientId now sp s :
  step parse (Connection clientId now sp) s
  = mkState (<[clientId := length (heap s)]> (clients s))
            (heap s ++ [connected_client clientId now sp s])
            (connected_procs sp s) (timers s) (pingInterval s) (wss_closed s).
Proof.
  simpl. unfold on_connection, createFFmpegProcess. simpl.
  rewrite lookup_insert_eq.
  destruct sp as [|launched].
  - unfold sendToClient at 2. simpl. rewrite lookup_insert_eq.
    rewrite list_lookup_middle by done. simpl.
    erewrite update_client_last by reflexivity.
    unfold sendToClient. simpl. rewrite lookup_insert_eq.
    rewrite list_lookup_middle by done. simpl.
    erewrite update_client_last by reflexivity. reflexivity.
  - erewrite update_client_last by reflexivity.
    unfold sendToClient. simpl. rewrite lookup_insert_eq.
    rewrite list_lookup_middle by done. simpl.
    erewrite update_client_last by reflexivity. reflexivity.
Qed.

(** ** Invariants of the event loop *)

Lemma evolves_refl c : evolves c c.
Proof.
  split; [done|]. split; [|done]. exists []. by rewrite app_nil_r.
Qed.

Lemma evolves_trans c1 c2 c3 : evolves c1 c2 -> evolves c2 c3 -> evolves c1 c3.
Proof.
  intros (Hid1 & (e1 & Hs1 & Hf1) & Hp1) (Hid2 & (e2 & Hs2 & Hf2) & Hp2).
  split; [congruence|]. split; [|auto].
  exists (e1 ++ e2). split.
  - by rewrite Hs2, Hs1, app_assoc.
  - by apply Forall_app.
Qed.

(** A change that keeps id, sent frames and process field. *)
Lemma evolves_same c c' :
  id c' = id c -> sent (ws c') = sent (ws c) ->
  ffmpegProcess c' = ffmpegProcess c -> evolves c c'.
Proof.
  intros Hid Hs Hp. split; [done|]. split; [|congruence].
  exists []. by rewrite app_nil_r.
Qed.

Lemma evolves_send f c :
  is_connection_frame f = false -> evolves c (set_ws (Ws.send f (ws c)) c).
Proof.
  intros Hf. split; [done|]. split; [|done]. simpl. unfold Ws.send.
  destruct (is_open (readyState (ws c))); simpl.
  - exists [f]. split; [done|]. by constructor.
  - exists []. by rewrite app_nil_r.
Qed.

Lemma evolves_ws_state w c :
  sent w = sent (ws c) -> evolves c (set_ws w c).
Proof. intros H. by apply evolves_same. Qed.

Lemma evolves_exit c : evolves c (set_ffmpegProcess None c).
Proof.
  split; [done|]. split; [|done]. exists []. by rewrite app_nil_r.
Qed.

Lemma object_step_refl r s : object_step r s s.
Proof. intros c Hc. exists c. split; [done|apply evolves_refl]. Qed.

Lemma object_step_trans r s1 s2 s3 :
  object_step r s1 s2 -> object_step r s2 s3 -> object_step r s1 s3.
Proof.
  intros H12 H23 c Hc. destruct (H12 c Hc) as (c2 & Hc2 & He2).
  destruct (H23 c2 Hc2) as (c3 & Hc3 & He3).
  exists c3. split; [done|]. by eapply evolves_trans.
Qed.

Lemma object_step_heap_eq r s s' : heap s' = heap s -> object_step r s s'.
Proof.
  intros Hh c Hc. exists c. rewrite Hh. split; [done|apply evolves_refl].
Qed.

Lemma object_step_update r r0 f s :
  (forall c, evolves c (f c)) -> object_step r s (update_client r0 f s).
Proof.
  intros Hf c Hc. destruct (decide (r0 = r)) as [->|Hne].
  - exists (f c). rewrite update_client_lookup_eq, Hc. split; [done|apply Hf].
  - exists c. rewrite update_client_lookup_ne by done.
    split; [done|apply evolves_refl].
Qed.

Lemma object_step_update_at r r0 c0 f s :
  heap s !! r0 = Some c0 -> evolves c0 (f c0) ->
  object_step r s (update_client r0 f s).
Proof.
  intros H0 Hf c Hc. destruct (decide (r0 = r)) as [->|Hne].
  - exists (f c). rewrite update_client_lookup_eq, Hc. split; [done|].
    rewrite H0 in Hc. by injection Hc as <-.
  - exists c. rewrite update_client_lookup_ne by done.
    split; [done|apply evolves_refl].
Qed.

Lemma object_step_forEach r f s :
  (forall r0 k acc, object_step r acc (f r0 k acc)) ->
  object_step r s (forEach f s).
Proof.
  intros Hf. apply (forEach_invariant (fun acc => object_step r s acc)).
  - apply object_step_refl.
  - intros r0 k acc Hacc _. eapply object_step_trans; [done|apply Hf].
Qed.

Lemma registry_shrinks_refl s : registry_shrinks s s.
Proof. intros k. by right. Qed.

Lemma registry_shrinks_trans s1 s2 s3 :
  registry_shrinks s1 s2 -> registry_shrinks s2 s3 -> registry_shrinks s1 s3.
Proof.
  intros H12 H23 k. destruct (H23 k) as [H|H]; [by left|].
  rewrite H. apply H12.
Qed.

Lemma registry_shrinks_eq s s' : clients s' = clients s -> registry_shrinks s s'.
Proof. intros H k. right. by rewrite H. Qed.

Lemma registry_shrinks_delete k0 s s' :
  clients s' = delete k0 (clients s) -> registry_shrinks s s'.
Proof.
  intros H k. rewrite H. destruct (decide (k0 = k)) as [->|Hne].
  - left. apply lookup_delete_eq.
  - right. by apply lookup_delete_ne.
Qed.

Lemma registry_shrinks_forEach f s :
  (forall r0 k acc, registry_shrinks acc (f r0 k acc)) ->
  registry_shrinks s (forEach f s).
Proof.
  intros Hf. apply (forEach_invariant (fun acc => registry_shrinks s acc)).
  - apply registry_shrinks_refl.
  - intros r0 k acc Hacc _. eapply registry_shrinks_trans; [done|apply Hf].
Qed.

(** *** The handlers, one by one *)

Lemma sendToClient_clients k data s : clients (sendToClient k data s) = clients s.
Proof.
  unfold sendToClient. destruct (clients s !! k) as [r|]; [|done].
  destruct (heap s !! r) as [c|]; [|done].
  destruct (is_open (readyState (ws c))); [apply update_client_clients|done].
Qed.

Lemma sendToClient_procs k data s : procs (sendToClient k data s) = procs s.
Proof.
  unfold sendToClient. destruct (clients s !! k) as [r|]; [|done].
  destruct (heap s !! r) as [c|]; [|done].
  destruct (is_open (readyState (ws c))); [apply update_client_procs|done].
Qed.

Lemma sendToClient_object r k data s :
  is_connection_frame (FText data) = false ->
  object_step r s (sendToClient k data s).
Proof.
  intros Hd. unfold sendToClient. destruct (clients s !! k) as [r0|];
    [|apply object_step_refl].
  destruct (heap s !! r0) as [c|]; [|apply object_step_refl].
  destruct (is_open (readyState (ws c))); [|apply object_step_refl].
  apply object_step_update. intros c'. by apply evolves_send.
Qed.

Lemma sendToFFmpeg_heap k b s : heap (sendToFFmpeg k b s) = heap s.
Proof.
  unfold sendToFFmpeg. destruct (clients s !! k) as [r|]; [|done].
  destruct (heap s !! r) as [c|]; [|done].
  destruct (ffmpegProcess c) as [pid|]; [|done].
  destruct (procs s !! pid) as [p|]; [|done].
  destruct (killed p); [done|].
  destruct (negb (stdin_destroyed p)); [apply update_proc_heap|done].
Qed.

Lemma sendToFFmpeg_clients k b s : clients (sendToFFmpeg k b s) = clients s.
Proof.
  unfold sendToFFmpeg. destruct (clients s !! k) as [r|]; [|done].
  destruct (heap s !! r) as [c|]; [|done].
  destruct (ffmpegProcess c) as [pid|]; [|done].
  destruct (procs s !! pid) as [p|]; [|done].
  destruct (killed p); [done|].
  destruct (negb (stdin_destroyed p)); [apply update_proc_clients|done].
Qed.

Lemma on_message_object parse r k data now s :
  object_step r s (on_message parse k data now s).
Proof.
  unfold on_message. destruct (is_heartbeat parse data).
  - destruct (clients s !! k) as [r0|]; [|apply object_step_refl].
    apply object_step_update. intros c. by apply evolves_same.
  - destruct (negb (length (toBuffer data) =? 0)%nat); [|apply object_step_refl].
    apply object_step_heap_eq, sendToFFmpeg_heap.
Qed.

Lemma on_message_clients parse k data now s :
  clients (on_message parse k data now s) = clients s.
Proof.
  unfold on_message. destruct (is_heartbeat parse data).
  - destruct (clients s !! k) as [r0|]; [apply update_client_clients|done].
  - destruct (negb (length (toBuffer data) =? 0)%nat); [|done].
    apply sendToFFmpeg_clients.
Qed.

Lemma ws_terminate_sent w : sent (Ws.terminate w) = sent w.
Proof. unfold Ws.terminate. by destruct (readyState w). Qed.

Lemma ws_close_sent w : sent (Ws.close w) = sent w.
Proof. unfold Ws.close. by destruct (readyState w). Qed.

Lemma ws_closing_sent w : sent (Ws.closing w) = sent w.
Proof. unfold Ws.closing. by destruct (readyState w). Qed.

Lemma ping_client_object now r r0 k s :
  object_step r s (ping_client now r0 k s).
Proof.
  assert (Hterm : forall s0, object_step r s0
            (clients_delete k
               (update_client r0 (fun c => set_ws (Ws.terminate (ws c)) c) s0))).
  { intros s0. eapply object_step_trans; [|by apply object_step_heap_eq].
    apply object_step_update. intros c.
    apply evolves_ws_state, ws_terminate_sent. }
  unfold ping_client.
  destruct (heap s !! r0) as [c|] eqn:H0; [|apply object_step_refl].
  destruct (negb (is_open (readyState (ws c)))); [by apply object_step_heap_eq|].
  destruct (now - lastPing c >? PONG_TIMEOUT); [apply Hterm|].
  destruct (negb (isAlive c)); [apply Hterm|].
  unfold Ws.ping. destruct (is_open (readyState (ws c))).
  - eapply object_step_update_at; [done|]. by apply evolves_same.
  - eapply object_step_trans; [|by apply object_step_heap_eq].
    apply object_step_update. intros c'. by apply evolves_same.
Qed.

Lemma ping_client_registry now r0 k s :
  registry_shrinks s (ping_client now r0 k s).
Proof.
  unfold ping_client. destruct (heap s !! r0) as [c|];
    [|apply registry_shrinks_refl].
  destruct (negb (is_open (readyState (ws c))));
    [by apply (registry_shrinks_delete k)|].
  destruct (now - lastPing c >? PONG_TIMEOUT).
  { apply (registry_shrinks_delete k). simpl. by rewrite update_client_clients. }
  destruct (negb (isAlive c)).
  { apply (registry_shrinks_delete k). simpl. by rewrite update_client_clients. }
  destruct (Ws.ping (ws c)).
  - apply registry_shrinks_eq, update_client_clients.
  - apply (registry_shrinks_delete k). simpl. by rewrite update_client_clients.
Qed.

Lemma close_client_object r r0 k s : object_step r s (close_client r0 k s).
Proof.
  intros c Hc. destruct (close_client_heap r0 k s r c Hc) as (c1 & Hc1 & Hf & _).
  exists c1. split; [done|].
  unfold close_client in Hc1. rewrite cleanupClient_heap in Hc1.
  destruct (heap s !! r0) as [c0|] eqn:H0.
  - destruct (is_open (readyState (ws c0))).
    + destruct (decide (r0 = r)) as [->|Hne].
      * rewrite update_client_lookup_eq, cleanupClient_heap, Hc in Hc1.
        injection Hc1 as <-. apply evolves_ws_state, ws_close_sent.
      * rewrite update_client_lookup_ne, cleanupClient_heap, Hc in Hc1 by done.
        injection Hc1 as <-. apply evolves_refl.
    + rewrite cleanupClient_heap, Hc in Hc1. injection Hc1 as <-.
      apply evolves_refl.
  - rewrite cleanupClient_heap, Hc in Hc1. injection Hc1 as <-.
    apply evolves_refl.
Qed.

Lemma force_kill_heap r s : heap (force_kill r s) = heap s.
Proof.
  unfold force_kill. destruct (heap s !! r) as [c|]; [|done].
  destruct (ffmpegProcess c) as [pid|]; [|done].
  destruct (procs s !! pid) as [p|]; [|done].
  destruct (killed p); [done|apply update_proc_heap].
Qed.

Lemma force_kill_clients r s : clients (force_kill r s) = clients s.
Proof.
  unfold force_kill. destruct (heap s !! r) as [c|]; [|done].
  destruct (ffmpegProcess c) as [pid|]; [|done].
  destruct (procs s !! pid) as [p|]; [|done].
  destruct (killed p); [done|apply update_proc_clients].
Qed.

Lemma close_clients s : clients (close s) = ∅.
Proof.
  unfold close. simpl. apply forEach_deletes_all.
  intros r k acc _. apply close_client_clients.
Qed.

Lemma on_ffmpeg_stdout_object r r0 chunk s :
  object_step r s (on_ffmpeg_stdout r0 chunk s).
Proof.
  unfold on_ffmpeg_stdout. destruct (heap s !! r0) as [c|]; [|apply object_step_refl].
  destruct (is_open (readyState (ws c)) && negb (length chunk =? 0)%nat);
    [|apply object_step_refl].
  apply object_step_update. intros c'. by apply evolves_send.
Qed.

(** Every event lets every existing client object evolve. *)
Lemma step_object parse e s r : object_step r s (step parse e s).
Proof.
  destruct e as [k now sp|r0 data now|r0 now|r0|r0|r0|pid chunk|pid data|pid|pid
                 |r0|now|k|].
  - intros c Hc. exists c. rewrite on_connection_eq. simpl.
    rewrite lookup_app_l by (by eapply lookup_lt_Some).
    split; [done|apply evolves_refl].
  - simpl. destruct (id_of r0 s); [apply on_message_object|apply object_step_refl].
  - simpl. destruct (id_of r0 s) as [k|]; [|apply object_step_refl].
    unfold on_pong. destruct (clients s !! k); [|apply object_step_refl].
    apply object_step_update. intros c. by apply evolves_same.
  - simpl. apply object_step_update. intros c.
    apply evolves_ws_state, ws_closing_sent.
  - simpl. destruct (id_of r0 s) as [k|]; [|apply object_step_refl].
    eapply object_step_trans;
      [|apply object_step_heap_eq, cleanupClient_heap].
    apply object_step_update. intros c. by apply evolves_ws_state.
  - simpl. destruct (id_of r0 s) as [k|]; [|apply object_step_refl].
    apply object_step_heap_eq, cleanupClient_heap.
  - simpl. destruct (procs s !! pid); [|apply object_step_refl].
    apply on_ffmpeg_stdout_object.
  - apply object_step_refl.
  - simpl. destruct (procs s !! pid) as [p|]; [|apply object_step_refl].
    destruct (id_of (owner p) s); [|apply object_step_refl].
    by apply sendToClient_object.
  - simpl. destruct (procs s !! pid) as [p|]; [|apply object_step_refl].
    eapply object_step_trans; [apply object_step_heap_eq, update_proc_heap|].
    apply object_step_update. intros c. apply evolves_exit.
  - simpl. destruct (existsb (Nat.eqb r0) (timers s)); [|apply object_step_refl].
    apply object_step_heap_eq. by rewrite force_kill_heap.
  - simpl. unfold ping_tick. destruct (pingInterval s); [|apply object_step_refl].
    apply object_step_forEach. intros r1 k acc. apply ping_client_object.
  - simpl. unfold disconnectClient. destruct (clients s !! k);
      [|apply object_step_refl]. simpl.
    eapply object_step_trans; [|by apply object_step_heap_eq].
    apply object_step_update. intros c. apply evolves_ws_state, ws_close_sent.
  - simpl. unfold close.
    set (s1 := mkState (clients s) (heap s) (procs s) (timers s) false (wss_closed s)).
    assert (H1 : object_step r s1 (forEach close_client s1)).
    { apply object_step_forEach. intros r1 k acc. apply close_client_object. }
    intros c Hc. destruct (H1 c Hc) as (c' & Hc' & He). by exists c'.
Qed.

(** Only a new connection adds to the registry. *)
Lemma step_registry parse e s :
  (forall k now sp, e <> Connection k now sp) ->
  registry_shrinks s (step parse e s).
Proof.
  intros Hnc.
  destruct e as [k now sp|r0 data now|r0 now|r0|r0|r0|pid chunk|pid data|pid|pid
                 |r0|now|k|]; simpl.
  - by destruct (Hnc k now sp).
  - destruct (id_of r0 s); [|apply registry_shrinks_refl].
    apply registry_shrinks_eq, on_message_clients.
  - destruct (id_of r0 s) as [k|]; [|apply registry_shrinks_refl].
    unfold on_pong. destruct (clients s !! k); [|apply registry_shrinks_refl].
    apply registry_shrinks_eq, update_client_clients.
  - apply registry_shrinks_eq, update_client_clients.
  - destruct (id_of r0 s) as [k|]; [|apply registry_shrinks_refl].
    apply (registry_shrinks_delete k).
    by rewrite cleanupClient_clients, update_client_clients.
  - destruct (id_of r0 s) as [k|]; [|apply registry_shrinks_refl].
    apply (registry_shrinks_delete k), cleanupClient_clients.
  - destruct (procs s !! pid) as [p|]; [|apply registry_shrinks_refl].
    unfold on_ffmpeg_stdout.
    destruct (heap s !! owner p) as [c|]; [|apply registry_shrinks_refl].
    destruct (is_open (readyState (ws c)) && negb (length chunk =? 0)%nat);
      [|apply registry_shrinks_refl].
    apply registry_shrinks_eq, update_client_clients.
  - apply registry_shrinks_refl.
  - destruct (procs s !! pid) as [p|]; [|apply registry_shrinks_refl].
    destruct (id_of (owner p) s); [|apply registry_shrinks_refl].
    apply registry_shrinks_eq, sendToClient_clients.
  - destruct (procs s !! pid) as [p|]; [|apply registry_shrinks_refl].
    apply registry_shrinks_eq. unfold on_ffmpeg_exit.
    by rewrite update_client_clients, update_proc_clients.
  - destruct (existsb (Nat.eqb r0) (timers s)); [|apply registry_shrinks_refl].
    apply registry_shrinks_eq. by rewrite force_kill_clients.
  - unfold ping_tick. destruct (pingInterval s); [|apply registry_shrinks_refl].
    apply registry_shrinks_forEach. intros r1 k acc. apply ping_client_registry.
  - unfold disconnectClient. destruct (clients s !! k);
      [|apply registry_shrinks_refl]. simpl.
    apply (registry_shrinks_delete k). simpl. by rewrite update_client_clients.
  - intros k. left. by rewrite close_clients.
Qed.

(** A connection under another id leaves the entry of [k] alone. *)
Lemma step_registry_connection parse k' now sp s k :
  k' <> k ->
  clients (step parse (Connection k' now sp) s) !! k = clients s !! k.
Proof.
  intros Hne. rewrite on_connection_eq. simpl. by rewrite lookup_insert_ne.
Qed.

Lemma run_app parse evs1 evs2 s :
  run parse (evs1 ++ evs2) s = run parse evs2 (run parse evs1 s).
Proof. unfold run. by rewrite fold_left_app. Qed.

Lemma run_object parse evs : forall s r, object_step r s (run parse evs s).
Proof.
  induction evs as [|e evs IH]; intros s r; simpl.
  - apply object_step_refl.
  - eapply object_step_trans; [apply step_object|apply IH].
Qed.

(** While its id is not handed out again, the entry of a client object
    stays its own or disappears. *)
Lemma run_registry parse evs : forall s k r,
  Forall (fun e => reuses_id k e = false) evs ->
  clients s !! k = None \/ clients s !! k = Some r ->
  clients (run parse evs s) !! k = None \/ clients (run parse evs s) !! k = Some r.
Proof.
  induction evs as [|e evs IH]; intros s k r Hevs Hk; simpl; [done|].
  apply Forall_cons in Hevs as [He Hevs]. apply IH; [done|].
  assert (Hcase : (exists k' now sp, e = Connection k' now sp) \/
                  (forall k' now sp, e <> Connection k' now sp)).
  { destruct e; first [by left; eauto | by right]. }
  destruct Hcase as [(k' & now & sp & ->)|Hnc].
  - simpl in He. apply String.eqb_neq in He.
    by rewrite step_registry_connection.
  - destruct (step_registry parse e s Hnc k) as [H|H]; [by left|].
    by rewrite H.
Qed.

(** *** Processes are only spawned by the connection handler *)

Lemma update_proc_owners pid f s :
  (forall p, owner (f p) = owner p) ->
  owners (update_proc pid f s) = owners s.
Proof.
  intros Hf. unfold owners, update_proc.
  destruct (procs s !! pid) as [p|] eqn:E; [|done]. simpl.
  rewrite list_fmap_insert, Hf. apply list_insert_id.
  by rewrite list_lookup_fmap, E.
Qed.

Lemma kill_owner sig p : owner (Proc.kill sig p) = owner p.
Proof. unfold Proc.kill. by destruct (running p). Qed.

Lemma owners_procs_eq s s' : procs s' = procs s -> owners s' = owners s.
Proof. unfold owners. by intros ->. Qed.

Lemma cleanupClient_owners k s : owners (cleanupClient k s) = owners s.
Proof.
  unfold cleanupClient. destruct (clients s !! k) as [r|]; [|done].
  destruct (heap s !! r) as [c|]; [|done].
  destruct (ffmpegProcess c) as [pid|]; [|done].
  destruct (procs s !! pid) as [p|]; [|done].
  destruct (killed p); [done|].
  apply (update_proc_owners pid (Proc.kill SIGTERM)), kill_owner.
Qed.

Lemma sendToFFmpeg_owners k b s : owners (sendToFFmpeg k b s) = owners s.
Proof.
  unfold sendToFFmpeg. destruct (clients s !! k) as [r|]; [|done].
  destruct (heap s !! r) as [c|]; [|done].
  destruct (ffmpegProcess c) as [pid|]; [|done].
  destruct (procs s !! pid) as [p|]; [|done].
  destruct (killed p); [done|].
  destruct (negb (stdin_destroyed p)); [|done].
  by apply update_proc_owners.
Qed.

Lemma force_kill_owners r s : owners (force_kill r s) = owners s.
Proof.
  unfold force_kill. destruct (heap s !! r) as [c|]; [|done].
  destruct (ffmpegProcess c) as [pid|]; [|done].
  destruct (procs s !! pid) as [p|]; [|done].
  destruct (killed p); [done|].
  apply update_proc_owners, kill_owner.
Qed.

(** Only a connection whose [spawn] returns adds a process, and it adds it
    for the client object it has just created. *)
Lemma step_owners parse e s :
  owners (step parse e s)
  = owners s ++ match e with
                | Connection _ _ (SpawnReturns _) => [length (heap s)]
                | _ => []
                end.
Proof.
  destruct e as [k now sp|r0 data now|r0 now|r0|r0|r0|pid chunk|pid data|pid|pid
                 |r0|now|k|]; try rewrite app_nil_r.
  - rewrite on_connection_eq. unfold owners. simpl.
    destruct sp as [|launched]; simpl; [by rewrite app_nil_r|].
    by rewrite fmap_app.
  - simpl. destruct (id_of r0 s) as [k|]; [|done]. unfold on_message.
    destruct (is_heartbeat parse data).
    + destruct (clients s !! k); [|done].
      apply owners_procs_eq, update_client_procs.
    + destruct (negb (length (toBuffer data) =? 0)%nat); [|done].
      apply sendToFFmpeg_owners.
  - simpl. destruct (id_of r0 s) as [k|]; [|done]. unfold on_pong.
    destruct (clients s !! k); [|done].
    apply owners_procs_eq, update_client_procs.
  - apply owners_procs_eq, update_client_procs.
  - simpl. destruct (id_of r0 s) as [k|]; [|done].
    rewrite cleanupClient_owners. apply owners_procs_eq, update_client_procs.
  - simpl. destruct (id_of r0 s) as [k|]; [|done]. apply cleanupClient_owners.
  - simpl. destruct (procs s !! pid) as [p|]; [|done]. unfold on_ffmpeg_stdout.
    destruct (heap s !! owner p) as [c|]; [|done].
    destruct (is_open (readyState (ws c)) && negb (length chunk =? 0)%nat); [|done].
    apply owners_procs_eq, update_client_procs.
  - done.
  - simpl. destruct (procs s !! pid) as [p|]; [|done].
    destruct (id_of (owner p) s); [|done].
    apply owners_procs_eq, sendToClient_procs.
  - simpl. destruct (procs s !! pid) as [p|]; [|done]. unfold on_ffmpeg_exit.
    rewrite (owners_procs_eq (update_proc pid Proc.gone s))
      by apply update_client_procs.
    by apply update_proc_owners.
  - simpl. destruct (existsb (Nat.eqb r0) (timers s)); [|done].
    by rewrite force_kill_owners.
  - apply owners_procs_eq, ping_tick_procs.
  - simpl. unfold disconnectClient. destruct (clients s !! k); [|done]. simpl.
    apply owners_procs_eq. unfold clients_delete, with_clients. simpl.
    by rewrite update_client_procs.
  - simpl. unfold close. unfold owners at 1. simpl.
    change (owners (forEach close_client
              (mkState (clients s) (heap s) (procs s) (timers s) false
                       (wss_closed s))) = owners s).
    apply (forEach_invariant (fun acc => owners acc = owners s)); [done|].
    intros r k acc Hacc _. unfold owners in *.
    rewrite close_client_procs. fold (owners (cleanupClient k acc)).
    by rewrite cleanupClient_owners.
Qed.

Lemma object_step_length r s s' :
  object_step r s s' -> (r < length (heap s))%nat -> (r < length (heap s'))%nat.
Proof.
  intros Hstep Hr. apply lookup_lt_is_Some_2 in Hr as [c Hc].
  destruct (Hstep c Hc) as (c' & Hc' & _). by eapply lookup_lt_Some.
Qed.

(** No event spawns a process for a client object that already exists. *)
Lemma run_spawned_for parse evs : forall s r,
  (r < length (heap s))%nat ->
  spawned_for r (run parse evs s) = spawned_for r s.
Proof.
  induction evs as [|e evs IH]; intros s r Hr; simpl; [done|].
  rewrite IH by (eapply object_step_length; [apply step_object|done]).
  unfold spawned_for. rewrite step_owners, filter_app, length_app.
  destruct e as [k now [|launched]| | | | | | | | | | | | |]; simpl; try lia.
  rewrite filter_cons, decide_False by lia. simpl. lia.
Qed.

(** ** After the transcoder exits *)

(** An inbound frame on a session without a process handle: a heartbeat
    refreshes the session, anything else changes nothing. *)
Lemma message_without_process parse s r c data now :
  heap s !! r = Some c ->
  ffmpegProcess c = None ->
  clients s !! id c = None \/ clients s !! id c = Some r ->
  let s' := step parse (Message r data now) s in
  procs s' = procs s /\ clients s' = clients s /\ timers s' = timers s /\
  sent_of r s' = sent_of r s /\
  (is_heartbeat parse data = false -> s' = s).
Proof.
  intros Hc Hf Hk. simpl. unfold id_of. rewrite Hc. simpl. unfold on_message.
  destruct (is_heartbeat parse data).
  - destruct Hk as [Hk|Hk]; rewrite Hk; [done|].
    rewrite update_client_procs, update_client_clients, update_client_timers.
    repeat split; try done.
    unfold sent_of. by rewrite update_client_lookup_eq, Hc.
  - assert (Hdrop : sendToFFmpeg (id c) (toBuffer data) s = s).
    { destruct Hk as [Hk|Hk].
      - by apply sendToFFmpeg_unregistered.
      - eapply sendToFFmpeg_unwritable; [done|done|].
        unfold writable_process. by rewrite Hf. }
    destruct (negb (length (toBuffer data) =? 0)%nat); [rewrite Hdrop|]; done.
Qed.

(** C7. When the exit event of a session's process fires, the handler
    clears the session's process field and leaves the registry as it is.
    From then on, whatever events
    follow (as long as the session's id is not handed out again), the field
    stays cleared and no process is ever spawned for the session; and every
    inbound frame on the session is dropped: nothing is written to any
    process, no frame goes to the client, the registry and the pending
    timers are as before (a heartbeat still refreshes the session, any
    other frame changes nothing at all). *)
Theorem exited_transcoder_is_not_replaced (parse : string -> option JsValue)
    (s : state) (pid : nat) (p : ChildProcess) (c : ClientConnection)
    (evs : list event) :
  procs s !! pid = Some p ->
  heap s !! owner p = Some c ->
  clients s !! id c = None \/ clients s !! id c = Some (owner p) ->
  Forall (fun e => reuses_id (id c) e = false) evs ->
  (ffmpegProcess <$> heap (step parse (FfmpegExit pid) s) !! owner p) = Some None /\
  clients (step parse (FfmpegExit pid) s) = clients s /\
  (ffmpegProcess <$> heap (run parse (FfmpegExit pid :: evs) s) !! owner p)
    = Some None /\
  spawned_for (owner p) (run parse (FfmpegExit pid :: evs) s)
    = spawned_for (owner p) s /\
  (forall data now,
     let s2 := run parse (FfmpegExit pid :: evs) s in
     let s3 := step parse (Message (owner p) data now) s2 in
     procs s3 = procs s2 /\ clients s3 = clients s2 /\ timers s3 = timers s2 /\
     sent_of (owner p) s3 = sent_of (owner p) s2 /\
     (is_heartbeat parse data = false -> s3 = s2)).
Proof.
  intros Hp Hc Hk Hevs.
  set (r := owner p). set (s1 := step parse (FfmpegExit pid) s).
  assert (Hc1 : heap s1 !! r = Some (set_ffmpegProcess None c)).
  { unfold s1. simpl. rewrite Hp. unfold on_ffmpeg_exit.
    by rewrite update_client_lookup_eq, update_proc_heap, Hc. }
  assert (Hk1 : clients s1 !! id c = None \/ clients s1 !! id c = Some r).
  { unfold s1. simpl. rewrite Hp. unfold on_ffmpeg_exit.
    by rewrite update_client_clients, update_proc_clients. }
  change (run parse (FfmpegExit pid :: evs) s) with (run parse evs s1).
  destruct (run_object parse evs s1 r _ Hc1) as (c2 & Hc2 & Hid2 & _ & Hf2).
  simpl in Hid2. specialize (Hf2 eq_refl).
  split; [by rewrite Hc1|]. split.
  { unfold s1. simpl. rewrite Hp. unfold on_ffmpeg_exit.
    by rewrite update_client_clients, update_proc_clients. }
  split; [rewrite Hc2; simpl; by rewrite Hf2|]. split.
  - rewrite run_spawned_for.
    + unfold s1, spawned_for. by rewrite step_owners, app_nil_r.
    + by eapply lookup_lt_Some.
  - intros data now. apply (message_without_process parse _ r c2); [done|done|].
    rewrite Hid2. by apply run_registry.
Qed.

(** The theorem on a session whose transcoder exits, followed by a monitor
    tick, a heartbeat and another connection. *)
Lemma exited_transcoder_is_not_replaced_witness :
  let s := run heartbeat_parser [Connection "c1" 50000 (SpawnReturns true)] init in
  let evs := [PingTick 60000; Message 0%nat (DString heartbeat_text) 60010;
              Connection "c2" 60020 (SpawnReturns true)] in
  (ffmpegProcess <$> heap (run heartbeat_parser (FfmpegExit 0%nat :: evs) s) !! 0%nat)
    = Some None /\
  spawned_for 0 (run heartbeat_parser (FfmpegExit 0%nat :: evs) s) = 1%nat.
Proof.
  intros s evs.
  pose proof (exited_transcoder_is_not_replaced heartbeat_parser s 0%nat
                (mkProc 0 false true false [] [])
                (mkClient "c1" (mkWs OPEN [FText (connection_msg "c1")] 0 false)
                          true 50000 (Some 0%nat))
                evs eq_refl eq_refl (or_intror eq_refl)
                ltac:(repeat constructor)) as (_ & _ & H1 & H2 & _).
  split; [exact H1 | exact H2].
Defined.

(** ** The welcome frame *)

Lemma filter_connection_none (l : list Frame) :
  Forall (fun f => is_connection_frame f = false) l ->
  filter (fun f => is_connection_frame f = true) l = [].
Proof.
  induction 1 as [|f l Hf _ IH]; [done|].
  rewrite filter_cons, decide_False by congruence. exact IH.
Qed.

Lemma spawn_error_frames_no_connection sp :
  Forall (fun f => is_connection_frame f = false) (spawn_error_frames sp).
Proof. destruct sp; repeat constructor. Qed.

(** C9 (amended). For every accepted connection the new client object is
    registered under the generated id and its socket is sent the connection
    frame carrying that id exactly once, whatever events follow.  Every
    other frame the socket is ever sent comes after it, except for the
    error frame of a [spawn] that throws, which comes just before it. *)
Theorem connection_frame_sent_once (parse : string -> option JsValue)
    (s : state) (clientId : string) (now : Z) (sp : SpawnOutcome)
    (evs : list event) :
  clients (step parse (Connection clientId now sp) s) !! clientId
    = Some (length (heap s)) /\
  js_field "clientId"
    match connection_msg clientId with JObj fields => fields | _ => [] end
    = Some (JStr clientId) /\
  exists later,
    sent_of (length (heap s)) (run parse (Connection clientId now sp :: evs) s)
      = spawn_error_frames sp ++ FText (connection_msg clientId) :: later /\
    Forall (fun f => is_connection_frame f = false) later /\
    length (filter (fun f => is_connection_frame f = true)
              (sent_of (length (heap s))
                 (run parse (Connection clientId now sp :: evs) s))) = 1%nat.
Proof.
  split; [rewrite on_connection_eq; simpl; apply lookup_insert_eq|].
  split; [done|].
  set (s1 := step parse (Connection clientId now sp) s).
  change (run parse (Connection clientId now sp :: evs) s) with (run parse evs s1).
  assert (Hc1 : heap s1 !! length (heap s)
                = Some (connected_client clientId now sp s)).
  { unfold s1. rewrite on_connection_eq. simpl. by apply list_lookup_middle. }
  destruct (run_object parse evs s1 _ _ Hc1)
    as (c2 & Hc2 & _ & (later & Hsent & Hlater) & _).
  simpl in Hsent. exists later. unfold sent_of. rewrite Hc2, Hsent.
  rewrite <- app_assoc. simpl. split; [done|]. split; [done|].
  rewrite filter_app, filter_cons, decide_True by done.
  rewrite (filter_connection_none _ (spawn_error_frames_no_connection sp)).
  by rewrite (filter_connection_none _ Hlater).
Qed.

(** C9 (as stated) fails when [spawn] throws: the handler has already sent
    the error frame when it sends the connection frame. *)
Lemma spawn_error_precedes_connection_frame :
  sent_of 0 (run heartbeat_parser [Connection "c1" 0 SpawnThrows] init)
    = [FText (error_msg "Failed to initialize black & white video processing");
       FText (connection_msg "c1")] /\
  ~ connection_frame_first heartbeat_parser.
Proof.
  split; [reflexivity|]. intros H.
  specialize (H init "c1"%string 0 SpawnThrows []). vm_compute in H.
  discriminate H.
Qed.

(** ** A transcoder that cannot be launched *)

Lemma update_client_wss_closed r f s :
  wss_closed (update_client r f s) = wss_closed s.
Proof. unfold update_client. by destruct (heap s !! r). Qed.

(** Inbound frames on a registered session without a writable process only
    ever refresh the liveness fields of that session. *)
Lemma run_messages_unwritable parse msgs : forall s r c,
  heap s !! r = Some c ->
  clients s !! id c = Some r ->
  writable_process s c = None ->
  Forall (fun e => is_message_on r e = true) msgs ->
  let s' := run parse msgs s in
  clients s' = clients s /\ procs s' = procs s /\ timers s' = timers s /\
  pingInterval s' = pingInterval s /\ wss_closed s' = wss_closed s /\
  (forall r', r' <> r -> heap s' !! r' = heap s !! r') /\
  exists a t, heap s' !! r = Some (set_alive a t c).
Proof.
  induction msgs as [|e msgs IH]; intros s r c Hc Hk Hw Hmsgs; simpl.
  - repeat split; try done. exists (isAlive c), (lastPing c). by destruct c.
  - apply Forall_cons in Hmsgs as [He Hmsgs].
    destruct e as [|r0 data now| | | | | | | | | | | |]; try discriminate He.
    simpl in He. apply Nat.eqb_eq in He as ->.
    fold (run parse msgs (step parse (Message r data now) s)).
    assert (Hstep : step parse (Message r data now) s = s \/
                    step parse (Message r data now) s
                    = update_client r (set_alive true now) s).
    { simpl. unfold id_of. rewrite Hc. simpl. unfold on_message.
      destruct (is_heartbeat parse data).
      - right. by rewrite Hk.
      - left. destruct (negb (length (toBuffer data) =? 0)%nat); [|done].
        by eapply sendToFFmpeg_unwritable. }
    destruct Hstep as [->| ->]; [by apply IH|].
    set (s1 := update_client r (set_alive true now) s).
    destruct (IH s1 r (set_alive true now c))
      as (H1 & H2 & H3 & H4 & H5 & H6 & a & t & H7).
    + unfold s1. by rewrite update_client_lookup_eq, Hc.
    + unfold s1. by rewrite update_client_clients.
    + unfold writable_process in *. unfold s1. simpl.
      by rewrite update_client_procs.
    + done.
    + unfold s1 in *.
      rewrite update_client_clients in H1. rewrite update_client_procs in H2.
      rewrite update_client_timers in H3. rewrite update_client_pingInterval in H4.
      rewrite update_client_wss_closed in H5.
      repeat split; try done.
      * intros r' Hne. rewrite H6 by done. by rewrite update_client_lookup_ne.
      * by exists a, t.
Qed.

(** The state once the failed launch has been reported. *)
Lemma launch_failure_reported parse s clientId now sp :
  sp = SpawnThrows \/ sp = SpawnReturns false ->
  run parse (Connection clientId now sp :: launch_failure sp s) s
  = mkState (<[clientId := length (heap s)]> (clients s))
      (heap s ++
         [set_ws (mkWs OPEN (spawn_error_frames sp ++ [FText (connection_msg clientId)]
                             ++ async_error_frames sp) 0 false)
                 (connected_client clientId now sp s)])
      (connected_procs sp s) (timers s) (pingInterval s) (wss_closed s).
Proof.
  intros [-> | ->].
  - unfold launch_failure, run, fold_left. by rewrite on_connection_eq.
  - unfold launch_failure, run, fold_left. rewrite on_connection_eq.
    simpl. rewrite list_lookup_middle by done. simpl.
    unfold id_of. simpl. rewrite list_lookup_middle by done. simpl.
    unfold on_ffmpeg_error, sendToClient. simpl. rewrite lookup_insert_eq.
    rewrite list_lookup_middle by done. simpl.
    erewrite update_client_last by reflexivity. reflexivity.
Qed.

(** C6. When the transcoder cannot be launched for a new session, whether
    [spawn] throws or returns a process object on which ['error'] is then
    emitted, and whatever inbound frames the session receives afterwards:
    the session is registered under its id and its socket is open; the
    client has been sent exactly one error frame (a text frame of type
    ["error"] with a message) besides the connection frame, and nothing
    else; no inbound frame was written to any process; and the rest of the
    service is as it was: the other registry entries, the other client
    objects, every existing process, the pending timers, the monitor and the
    listener. *)
Theorem launch_failure_is_contained (parse : string -> option JsValue)
    (s : state) (clientId : string) (now : Z) (sp : SpawnOutcome)
    (msgs : list event) :
  sp = SpawnThrows \/ sp = SpawnReturns false ->
  Forall (fun e => is_message_on (length (heap s)) e = true) msgs ->
  clients (run parse (Connection clientId now sp :: launch_failure sp s ++ msgs) s)
    = <[clientId := length (heap s)]> (clients s) /\
  (exists c,
     heap (run parse (Connection clientId now sp :: launch_failure sp s ++ msgs) s)
       !! length (heap s) = Some c /\
     id c = clientId /\
     readyState (ws c) = OPEN /\
     sent (ws c) = spawn_error_frames sp ++ [FText (connection_msg clientId)]
                   ++ async_error_frames sp /\
     length (filter (fun f => is_error_frame f = true) (sent (ws c))) = 1%nat /\
     writable_process
       (run parse (Connection clientId now sp :: launch_failure sp s ++ msgs) s) c
       = None) /\
  procs (run parse (Connection clientId now sp :: launch_failure sp s ++ msgs) s)
    = connected_procs sp s /\
  (forall r', (r' < length (heap s))%nat ->
     heap (run parse (Connection clientId now sp :: launch_failure sp s ++ msgs) s) !! r'
     = heap s !! r') /\
  timers (run parse (Connection clientId now sp :: launch_failure sp s ++ msgs) s)
    = timers s /\
  pingInterval (run parse (Connection clientId now sp :: launch_failure sp s ++ msgs) s)
    = pingInterval s /\
  wss_closed (run parse (Connection clientId now sp :: launch_failure sp s ++ msgs) s)
    = wss_closed s.
Proof.
  intros Hsp Hmsgs.
  rewrite app_comm_cons, run_app, (launch_failure_reported parse s clientId now sp Hsp).
  set (c2 := set_ws _ (connected_client clientId now sp s)).
  set (s2 := mkState _ _ _ _ _ _).
  assert (Hc2 : heap s2 !! length (heap s) = Some c2)
    by (by apply list_lookup_middle).
  assert (Hk2 : clients s2 !! id c2 = Some (length (heap s)))
    by apply lookup_insert_eq.
  assert (Hw2 : writable_process s2 c2 = None).
  { unfold writable_process. destruct Hsp as [-> | ->]; simpl; [done|].
    by rewrite list_lookup_middle. }
  destruct (run_messages_unwritable parse msgs s2 _ c2 Hc2 Hk2 Hw2 Hmsgs)
    as (H1 & H2 & H3 & H4 & H5 & H6 & a & t & H7).
  split; [by rewrite H1|]. split.
  - exists (set_alive a t c2). split; [done|]. split; [done|]. split; [done|].
    split; [done|]. split.
    + simpl. destruct Hsp as [-> | ->]; reflexivity.
    + unfold writable_process in *. simpl. by rewrite H2.
  - split; [by rewrite H2|]. split.
    + intros r' Hr'. rewrite H6 by lia. simpl. by apply lookup_app_l.
    + by rewrite H3, H4, H5.
Qed.

(** The theorem for a binary that is absent: [spawn] returns, ['error'] is
    emitted, then a data frame and a heartbeat arrive. *)
Lemma launch_failure_is_contained_witness :
  clients (run heartbeat_parser
             (Connection "c1" 0 (SpawnReturns false)
              :: launch_failure (SpawnReturns false) init
              ++ [Message 0%nat (DBuffer [Byte.x01]) 1;
                  Message 0%nat (DString heartbeat_text) 2]) init)
    = <[ "c1"%string := 0%nat ]> ∅ /\
  procs (run heartbeat_parser
           (Connection "c1" 0 (SpawnReturns false)
            :: launch_failure (SpawnReturns false) init
            ++ [Message 0%nat (DBuffer [Byte.x01]) 1;
                Message 0%nat (DString heartbeat_text) 2]) init)
    = [mkProc 0 false false true [] []].
Proof.
  pose proof (launch_failure_is_contained heartbeat_parser init "c1"%string 0
                (SpawnReturns false)
                [Message 0%nat (DBuffer [Byte.x01]) 1;
                 Message 0%nat (DString heartbeat_text) 2]
                (or_intror eq_refl) ltac:(repeat constructor))
    as (H1 & _ & H2 & _).
  split; [exact H1 | exact H2].
Defined.

(** * Further properties *)

(** ** Shape of the reachable states *)

Lemma well_formed_ext s s' :
  clients s' = clients s -> heap s' = heap s -> procs s' = procs s ->
  timers s' = timers s -> well_formed s -> well_formed s'.
Proof.
  intros Hc Hh Hp Ht. unfold well_formed, process_settled.
  by rewrite Hc, Hh, Hp, Ht.
Qed.

Lemma well_formed_init : well_formed init.
Proof.
  split; [|split; [|split; [|split]]]; simpl.
  - intros k r H. by rewrite lookup_empty in H.
  - intros r c pid H. by rewrite lookup_nil in H.
  - intros pid p H. by rewrite lookup_nil in H.
  - intros pid1 pid2 p1 p2 H. by rewrite lookup_nil in H.
  - intros r H. by apply elem_of_nil in H.
Qed.

(** Deleting a registry entry. *)
Lemma well_formed_delete k s : well_formed s -> well_formed (clients_delete k s).
Proof.
  intros (W1 & W2 & W3 & W4 & W5). split; [|done].
  intros k' r Hk'. simpl in Hk'.
  apply lookup_delete_Some in Hk' as [_ Hk']. by apply W1.
Qed.

(** Mutating a client object without touching its id, and leaving its
    process field alone or clearing it. *)
Lemma well_formed_update_client r f s :
  (forall c, heap s !! r = Some c ->
     id (f c) = id c /\
     (ffmpegProcess (f c) = ffmpegProcess c \/ ffmpegProcess (f c) = None)) ->
  well_formed s -> well_formed (update_client r f s).
Proof.
  intros Hf (W1 & W2 & W3 & W4 & W5).
  assert (Hlook : forall r' c', heap (update_client r f s) !! r' = Some c' ->
            exists c, heap s !! r' = Some c /\ id c' = id c /\
              (ffmpegProcess c' = ffmpegProcess c \/ ffmpegProcess c' = None)).
  { intros r' c' H. destruct (decide (r = r')) as [->|Hne].
    - rewrite update_client_lookup_eq in H.
      destruct (heap s !! r') as [c|] eqn:E; [|done]. injection H as <-.
      exists c. split; [done|]. by apply Hf.
    - rewrite update_client_lookup_ne in H by done. exists c'. eauto. }
  unfold well_formed, process_settled.
  rewrite update_client_clients, update_client_procs, update_client_timers,
    update_client_length.
  split; [|split; [|split; [done|split; [done|]]]].
  - intros k r' Hk. destruct (W1 k r' Hk) as (c & Hc & Hid).
    destruct (decide (r = r')) as [->|Hne].
    + exists (f c). rewrite update_client_lookup_eq, Hc. split; [done|].
      destruct (Hf c Hc) as [-> _]. done.
    + exists c. by rewrite update_client_lookup_ne.
  - intros r' c' pid Hc' Hpid. destruct (Hlook r' c' Hc') as (c & Hc & _ & [Hp|Hp]).
    + apply (W2 r' c pid Hc). congruence.
    + congruence.
  - intros r' Hr'. destruct (W5 r' Hr') as [Hlt Hset]. split; [done|].
    intros c' pid p Hc' Hpid Hp.
    destruct (Hlook r' c' Hc') as (c & Hc & _ & [Hq|Hq]); [|congruence].
    apply (Hset c pid p Hc); [congruence|done].
Qed.

(** Mutating a process object in a way that keeps its owner, keeps it
    signalled or gone if it was, and keeps the signal log in step with the
    killed flag. *)
Lemma well_formed_update_proc pid f s :
  (forall p, procs s !! pid = Some p ->
     owner (f p) = owner p /\
     (killed p = true -> killed (f p) = true) /\
     (running p = false -> running (f p) = false) /\
     (signals p = (if killed p then [SIGTERM] else []) ->
      signals (f p) = if killed (f p) then [SIGTERM] else [])) ->
  well_formed s -> well_formed (update_proc pid f s).
Proof.
  intros Hf (W1 & W2 & W3 & W4 & W5).
  assert (Hlook : forall pid' p', procs (update_proc pid f s) !! pid' = Some p' ->
            exists p, procs s !! pid' = Some p /\ owner p' = owner p /\
              (killed p = true -> killed p' = true) /\
              (running p = false -> running p' = false) /\
              (signals p = (if killed p then [SIGTERM] else []) ->
               signals p' = if killed p' then [SIGTERM] else [])).
  { intros pid' p' H. destruct (decide (pid = pid')) as [->|Hne].
    - rewrite update_proc_lookup_eq in H.
      destruct (procs s !! pid') as [p|] eqn:E; [|done]. injection H as <-.
      exists p. split; [done|]. by apply Hf.
    - rewrite update_proc_lookup_ne in H by done. exists p'. eauto 10. }
  unfold well_formed, process_settled.
  rewrite update_proc_clients, update_proc_heap, update_proc_timers.
  split; [done|]. split; [|split; [|split]].
  - intros r c pid' Hc Hpid. destruct (W2 r c pid' Hc Hpid) as (p & Hp & Ho).
    destruct (decide (pid = pid')) as [->|Hne].
    + exists (f p). rewrite update_proc_lookup_eq, Hp. split; [done|].
      destruct (Hf p Hp) as [-> _]. done.
    + exists p. by rewrite update_proc_lookup_ne.
  - intros pid' p' Hp'. destruct (Hlook pid' p' Hp') as (p & Hp & Ho & _ & _ & Hs).
    destruct (W3 pid' p Hp) as [Hlt Hk]. split; [by rewrite Ho|auto].
  - intros pid1 pid2 p1 p2 H1 H2 Ho.
    destruct (Hlook pid1 p1 H1) as (q1 & Hq1 & Ho1 & _).
    destruct (Hlook pid2 p2 H2) as (q2 & Hq2 & Ho2 & _).
    apply (W4 pid1 pid2 q1 q2 Hq1 Hq2). congruence.
  - intros r Hr. destruct (W5 r Hr) as [Hlt Hset]. split; [done|].
    intros c pid' p' Hc Hpid Hp'.
    destruct (Hlook pid' p' Hp') as (p & Hp & _ & Hk & Hrun & _).
    destruct (Hset c pid' p Hc Hpid Hp) as [H|H]; [left|right]; auto.
Qed.

(** Arming a force-kill timeout for a settled process. *)
Lemma well_formed_arm r s :
  (r < length (heap s))%nat -> process_settled r s -> well_formed s ->
  well_formed (with_timers (timers s ++ [r]) s).
Proof.
  intros Hlt Hr (W1 & W2 & W3 & W4 & W5).
  split; [exact W1|]. split; [exact W2|]. split; [exact W3|]. split; [exact W4|].
  intros r' Hr'. simpl in Hr'. apply elem_of_app in Hr' as [Hr'|Hr'].
  - by apply W5.
  - apply list_elem_of_singleton in Hr' as ->. by split.
Qed.

Lemma remove_first_subseteq r l x : x ∈ remove_first r l -> x ∈ l.
Proof.
  induction l as [|y l IH]; simpl; [done|].
  destruct (Nat.eqb y r).
  - intros H. by right.
  - intros H. apply elem_of_cons in H as [->|H]; [by left|right; auto].
Qed.

Lemma elem_of_existsb r l : existsb (Nat.eqb r) l = true -> r ∈ l.
Proof.
  intros H. apply existsb_exists in H as (x & Hx & Heq).
  apply Nat.eqb_eq in Heq as ->. by apply list_elem_of_In.
Qed.

Lemma well_formed_disarm r s :
  well_formed s -> well_formed (with_timers (remove_first r (timers s)) s).
Proof.
  intros (W1 & W2 & W3 & W4 & W5).
  split; [exact W1|]. split; [exact W2|]. split; [exact W3|]. split; [exact W4|].
  intros r' Hr'. simpl in Hr'. apply remove_first_subseteq in Hr'. by apply W5.
Qed.

Lemma well_formed_send k data s : well_formed s -> well_formed (sendToClient k data s).
Proof.
  intros W. unfold sendToClient. destruct (clients s !! k) as [r|]; [|done].
  destruct (heap s !! r) as [c|]; [|done].
  destruct (is_open (readyState (ws c))); [|done].
  apply well_formed_update_client; [|done]. intros c' _. split; [done|by left].
Qed.

Lemma kill_SIGTERM_ok p :
  killed p = false ->
  owner (Proc.kill SIGTERM p) = owner p /\
  (killed p = true -> killed (Proc.kill SIGTERM p) = true) /\
  (running p = false -> running (Proc.kill SIGTERM p) = false) /\
  (signals p = (if killed p then [SIGTERM] else []) ->
   signals (Proc.kill SIGTERM p)
   = if killed (Proc.kill SIGTERM p) then [SIGTERM] else []).
Proof.
  intros Hk. unfold Proc.kill. destruct (running p) eqn:E; simpl; [|done].
  split; [done|]. split; [done|]. split; [done|].
  rewrite Hk. by intros ->.
Qed.

Lemma well_formed_cleanup k s : well_formed s -> well_formed (cleanupClient k s).
Proof.
  intros W. unfold cleanupClient. destruct (clients s !! k) as [r|]; [|done].
  apply well_formed_delete.
  destruct (heap s !! r) as [c|] eqn:Hc; [|done].
  destruct (ffmpegProcess c) as [pid|] eqn:Hf; [|done].
  destruct (procs s !! pid) as [p|] eqn:Hp; [|done].
  destruct (killed p) eqn:Hk; [done|].
  replace (timers s) with (timers (update_proc pid (Proc.kill SIGTERM) s))
    by apply update_proc_timers.
  apply well_formed_arm.
  - rewrite update_proc_heap. by eapply lookup_lt_Some.
  - intros c' pid' p'. rewrite update_proc_heap, Hc. intros [= <-].
    rewrite Hf. intros [= <-]. rewrite update_proc_lookup_eq, Hp. intros [= <-].
    unfold Proc.kill. destruct (running p) eqn:Hrun; [by left|by right].
  - apply well_formed_update_proc; [|done]. intros p' Hp'.
    rewrite Hp in Hp'. injection Hp' as <-. by apply kill_SIGTERM_ok.
Qed.

Lemma well_formed_sendToFFmpeg k b s :
  well_formed s -> well_formed (sendToFFmpeg k b s).
Proof.
  intros W. unfold sendToFFmpeg. destruct (clients s !! k) as [r|]; [|done].
  destruct (heap s !! r) as [c|]; [|done].
  destruct (ffmpegProcess c) as [pid|]; [|done].
  destruct (procs s !! pid) as [p|]; [|done].
  destruct (killed p); [done|].
  destruct (negb (stdin_destroyed p)); [|done].
  by apply well_formed_update_proc.
Qed.

(** The force-kill timeout, fired while pending: its process is settled,
    so either the guard skips it or [kill] finds the process gone. *)
Lemma well_formed_force_kill r s :
  r ∈ timers s -> well_formed s ->
  well_formed (force_kill r (with_timers (remove_first r (timers s)) s)) /\
  procs (force_kill r (with_timers (remove_first r (timers s)) s)) = procs s.
Proof.
  intros Hr W. pose proof W as (_ & _ & _ & _ & W5).
  destruct (W5 r Hr) as [_ Hset].
  pose proof (well_formed_disarm r s W) as W'.
  unfold force_kill. simpl.
  destruct (heap s !! r) as [c|] eqn:Hc; [|done].
  destruct (ffmpegProcess c) as [pid|] eqn:Hf; [|done].
  destruct (procs s !! pid) as [p|] eqn:Hp; [|done].
  destruct (killed p) eqn:Hk; [done|].
  destruct (Hset c pid p Hc Hf Hp) as [H|Hrun]; [congruence|].
  assert (Hid : Proc.kill SIGKILL p = p) by (unfold Proc.kill; by rewrite Hrun).
  split.
  - apply well_formed_update_proc; [|done]. simpl. intros p'. rewrite Hp.
    intros [= <-]. by rewrite Hid.
  - unfold update_proc. simpl. rewrite Hp, Hid. simpl. by apply list_insert_id.
Qed.

Lemma well_formed_ping_client now r k s :
  well_formed s -> well_formed (ping_client now r k s).
Proof.
  intros W.
  assert (Hterm : well_formed
            (clients_delete k
               (update_client r (fun c => set_ws (Ws.terminate (ws c)) c) s))).
  { apply well_formed_delete, well_formed_update_client; [|done].
    intros c _. split; [done|by left]. }
  unfold ping_client. destruct (heap s !! r) as [c|]; [|done].
  destruct (negb (is_open (readyState (ws c)))); [by apply well_formed_delete|].
  destruct (now - lastPing c >? PONG_TIMEOUT); [done|].
  destruct (negb (isAlive c)); [done|].
  destruct (Ws.ping (ws c)).
  - apply well_formed_update_client; [|done]. intros c' _. split; [done|by left].
  - apply well_formed_delete, well_formed_update_client; [|done].
    intros c' _. split; [done|by left].
Qed.

Lemma well_formed_close_client r k s :
  well_formed s -> well_formed (close_client r k s).
Proof.
  intros W. pose proof (well_formed_cleanup k s W) as W'. unfold close_client.
  destruct (heap (cleanupClient k s) !! r) as [c|]; [|done].
  destruct (is_open (readyState (ws c))); [|done].
  apply well_formed_update_client; [|done]. intros c' _. split; [done|by left].
Qed.

Lemma well_formed_connection parse k now sp s :
  well_formed s -> well_formed (step parse (Connection k now sp) s).
Proof.
  intros (W1 & W2 & W3 & W4 & W5). rewrite on_connection_eq.
  assert (Hold_heap : forall r c,
            (heap s ++ [connected_client k now sp s]) !! r = Some c ->
            (heap s !! r = Some c) \/
            (r = length (heap s) /\ c = connected_client k now sp s)).
  { intros r c H. apply lookup_app_Some in H as [H|[Hge H]]; [by left|right].
    apply list_lookup_singleton_Some in H as [H1 H2]. split; [lia|done]. }
  assert (Hold_proc : forall pid p, connected_procs sp s !! pid = Some p ->
            (procs s !! pid = Some p) \/
            (pid = length (procs s) /\ owner p = length (heap s) /\
             (signals p = [] /\ killed p = false) /\
             exists l, sp = SpawnReturns l)).
  { intros pid p H. destruct sp as [|l]; simpl in H; [by left|].
    apply lookup_app_Some in H as [H|[Hge H]]; [by left|right].
    apply list_lookup_singleton_Some in H as [H1 <-].
    split; [lia|]. split; [done|]. split; [done|]. by exists l. }
  assert (Hproc_mono : forall pid p, procs s !! pid = Some p ->
            connected_procs sp s !! pid = Some p).
  { intros pid p H. destruct sp; simpl; [done|]. by apply lookup_app_l_Some. }
  split; [|split; [|split; [|split]]]; simpl.
  - intros k' r Hk'. destruct (decide (k = k')) as [->|Hne].
    + rewrite lookup_insert_eq in Hk'. injection Hk' as <-.
      exists (connected_client k' now sp s). split; [|done].
      by apply list_lookup_middle.
    + rewrite lookup_insert_ne in Hk' by done.
      destruct (W1 k' r Hk') as (c & Hc & Hid). exists c.
      split; [by apply lookup_app_l_Some|done].
  - intros r c pid Hc Hpid. destruct (Hold_heap r c Hc) as [Hc'|[-> ->]].
    + destruct (W2 r c pid Hc' Hpid) as (p & Hp & Ho). exists p. auto.
    + destruct sp as [|l]; simpl in Hpid; [done|]. injection Hpid as <-.
      exists (Proc.spawned l (length (heap s))). split; [|done].
      simpl. by apply list_lookup_middle.
  - intros pid p Hp. rewrite length_app. simpl.
    destruct (Hold_proc pid p Hp) as [Hp'|(_ & -> & [-> ->] & _)].
    + destruct (W3 pid p Hp') as [Hlt Hs]. split; [lia|done].
    + split; [lia|done].
  - intros pid1 pid2 p1 p2 H1 H2 Ho.
    destruct (Hold_proc pid1 p1 H1) as [H1'|(-> & Ho1 & _)],
             (Hold_proc pid2 p2 H2) as [H2'|(-> & Ho2 & _)].
    + by eapply W4.
    + destruct (W3 pid1 p1 H1') as [Hlt _]. lia.
    + destruct (W3 pid2 p2 H2') as [Hlt _]. lia.
    + done.
  - intros r Hr. destruct (W5 r Hr) as [Hlt Hset]. rewrite length_app.
    split; [lia|]. intros c pid p Hc Hpid Hp. simpl in *.
    destruct (Hold_heap r c Hc) as [Hc'|[-> _]]; [|lia].
    destruct (W2 r c pid Hc' Hpid) as (q & Hq & _).
    rewrite (Hproc_mono pid q Hq) in Hp. injection Hp as <-.
    by apply (Hset c pid q).
Qed.

Lemma well_formed_step parse e s : well_formed s -> well_formed (step parse e s).
Proof.
  intros W.
  destruct e as [k now sp|r0 data now|r0 now|r0|r0|r0|pid chunk|pid data|pid|pid
                 |r0|now|k|].
  - by apply well_formed_connection.
  - simpl. destruct (id_of r0 s) as [k|]; [|done]. unfold on_message.
    destruct (is_heartbeat parse data).
    + destruct (clients s !! k); [|done].
      apply well_formed_update_client; [|done]. intros c _. split; [done|by left].
    + destruct (negb (length (toBuffer data) =? 0)%nat); [|done].
      by apply well_formed_sendToFFmpeg.
  - simpl. destruct (id_of r0 s) as [k|]; [|done]. unfold on_pong.
    destruct (clients s !! k); [|done].
    apply well_formed_update_client; [|done]. intros c _. split; [done|by left].
  - simpl. apply well_formed_update_client; [|done].
    intros c _. split; [done|by left].
  - simpl. destruct (id_of r0 s) as [k|]; [|done].
    apply well_formed_cleanup, well_formed_update_client; [|done].
    intros c _. split; [done|by left].
  - simpl. destruct (id_of r0 s) as [k|]; [|done]. by apply well_formed_cleanup.
  - simpl. destruct (procs s !! pid) as [p|]; [|done]. unfold on_ffmpeg_stdout.
    destruct (heap s !! owner p) as [c|]; [|done].
    destruct (is_open (readyState (ws c)) && negb (length chunk =? 0)%nat); [|done].
    apply well_formed_update_client; [|done]. intros c' _. split; [done|by left].
  - done.
  - simpl. destruct (procs s !! pid) as [p|]; [|done].
    destruct (id_of (owner p) s); [|done]. by apply well_formed_send.
  - simpl. destruct (procs s !! pid) as [p|]; [|done]. unfold on_ffmpeg_exit.
    apply well_formed_update_client.
    + intros c _. split; [done|by right].
    + by apply well_formed_update_proc.
  - simpl. destruct (existsb (Nat.eqb r0) (timers s)) eqn:E; [|done].
    by destruct (well_formed_force_kill r0 s (elem_of_existsb _ _ E) W).
  - simpl. unfold ping_tick. destruct (pingInterval s); [|done].
    apply forEach_invariant; [done|].
    intros r k acc Hacc _. by apply well_formed_ping_client.
  - simpl. unfold disconnectClient. destruct (clients s !! k); [|done]. simpl.
    apply well_formed_delete, well_formed_update_client; [|done].
    intros c _. split; [done|by left].
  - simpl. unfold close.
    eapply (well_formed_ext
              (forEach close_client
                 (mkState (clients s) (heap s) (procs s) (timers s) false
                          (wss_closed s)))); try done.
    apply forEach_invariant.
    + by apply (well_formed_ext s).
    + intros r k acc Hacc _. by apply well_formed_close_client.
Qed.

Lemma well_formed_run parse evs : forall s,
  well_formed s -> well_formed (run parse evs s).
Proof.
  induction evs as [|e evs IH]; intros s W; simpl; [done|].
  by apply IH, well_formed_step.
Qed.

Lemma well_formed_reachable parse evs : well_formed (run parse evs init).
Proof. apply well_formed_run, well_formed_init. Qed.

Lemma filter_eq_absent (r : nat) (l : list nat) :
  r ∉ l -> filter (fun o => o = r) l = [].
Proof.
  induction l as [|x l IH]; intros Hr; [done|].
  apply not_elem_of_cons in Hr as [Hne Hr].
  rewrite filter_cons, decide_False by done. by apply IH.
Qed.

Lemma filter_eq_NoDup (r : nat) (l : list nat) :
  NoDup l -> (length (filter (fun o => o = r) l) <= 1)%nat.
Proof.
  induction 1 as [|x l Hx Hnd IH]; simpl; [lia|].
  rewrite filter_cons. destruct (decide (x = r)) as [->|Hne]; [|done].
  rewrite filter_eq_absent by done. simpl. lia.
Qed.

(** X1. The service sends a process at most one signal in its whole life,
    and never SIGKILL: in every state the service reaches from its start,
    a process has received a single SIGTERM if its [killed] flag is set and
    no signal otherwise, and the firing of any force-kill timeout armed by
    [cleanupClient] changes no process at all.  (The timeout is armed right
    after [kill("SIGTERM")], which either set [killed], so the guard of the
    timeout skips the process, or found the process gone, so
    [kill("SIGKILL")] finds it gone too.) *)
Theorem force_kill_never_delivers (parse : string -> option JsValue)
    (evs : list event) (r : nat) :
  (forall pid p, procs (run parse evs init) !! pid = Some p ->
     signals p = (if killed p then [SIGTERM] else []) /\ SIGKILL ∉ signals p) /\
  procs (step parse (ForceKillTimeout r) (run parse evs init))
    = procs (run parse evs init).
Proof.
  pose proof (well_formed_reachable parse evs) as W. split.
  - intros pid p Hp. destruct W as (_ & _ & W3 & _).
    destruct (W3 pid p Hp) as [_ Hs]. split; [done|]. rewrite Hs.
    destruct (killed p); [|apply not_elem_of_nil].
    intros Hin. by apply list_elem_of_singleton in Hin.
  - simpl. destruct (existsb (Nat.eqb r) (timers (run parse evs init))) eqn:E;
      [|done].
    by destruct (well_formed_force_kill r _ (elem_of_existsb _ _ E) W).
Qed.

(** X2. In every state the service reaches, a registry entry leads to an
    existing client object that carries the key as its [id], and no two
    keys lead to the same client object. *)
Theorem registry_entries_are_consistent (parse : string -> option JsValue)
    (evs : list event) :
  (forall k r, clients (run parse evs init) !! k = Some r ->
     exists c, heap (run parse evs init) !! r = Some c /\ id c = k) /\
  (forall k1 k2 r, clients (run parse evs init) !! k1 = Some r ->
     clients (run parse evs init) !! k2 = Some r -> k1 = k2).
Proof.
  destruct (well_formed_reachable parse evs) as (W1 & _). split; [exact W1|].
  intros k1 k2 r H1 H2.
  destruct (W1 k1 r H1) as (c1 & Hc1 & <-).
  destruct (W1 k2 r H2) as (c2 & Hc2 & <-). congruence.
Qed.

(** X3. In every state the service reaches, a session holds at most one
    process: at most one process has ever been spawned for a client
    object, and a process field that is set leads to the process that was
    spawned for that very client object. *)
Theorem one_process_per_session (parse : string -> option JsValue)
    (evs : list event) (r : nat) :
  (spawned_for r (run parse evs init) <= 1)%nat /\
  (forall c pid, heap (run parse evs init) !! r = Some c ->
     ffmpegProcess c = Some pid ->
     exists p, procs (run parse evs init) !! pid = Some p /\ owner p = r).
Proof.
  destruct (well_formed_reachable parse evs) as (_ & W2 & _ & W4 & _). split.
  - apply filter_eq_NoDup, NoDup_alt. unfold owners. intros i j o Hi Hj.
    rewrite list_lookup_fmap in Hi, Hj.
    destruct (procs (run parse evs init) !! i) as [p1|] eqn:E1; [|done].
    destruct (procs (run parse evs init) !! j) as [p2|] eqn:E2; [|done].
    simpl in Hi, Hj. apply (W4 i j p1 p2 E1 E2). congruence.
  - intros c pid Hc Hpid. by apply (W2 r c pid).
Qed.

(** ** Counting sessions *)

(** X4. [getConnectedClients] counts the registry entries and
    [getClientIds] lists their keys, each once.  A connection raises the
    count by one, unless its id is already registered, in which case the
    entry is overwritten and the count stays; [cleanupClient] and
    [disconnectClient] lower it by one for a registered id and leave it for
    an unknown one. *)
Theorem connected_clients_count (parse : string -> option JsValue)
    (s : state) (k : string) (now : Z) (sp : SpawnOutcome) :
  length (getClientIds s) = getConnectedClients s /\
  NoDup (getClientIds s) /\
  (forall k', k' ∈ getClientIds s <-> is_Some (clients s !! k')) /\
  getConnectedClients (step parse (Connection k now sp) s)
    = match clients s !! k with
      | Some _ => getConnectedClients s
      | None => S (getConnectedClients s)
      end /\
  getConnectedClients (cleanupClient k s)
    = match clients s !! k with
      | Some _ => pred (getConnectedClients s)
      | None => getConnectedClients s
      end /\
  getConnectedClients (disconnectClient k s).2
    = match clients s !! k with
      | Some _ => pred (getConnectedClients s)
      | None => getConnectedClients s
      end.
Proof.
  unfold getClientIds, getConnectedClients.
  split; [by rewrite length_fmap, length_map_to_list|].
  split; [apply NoDup_fst_map_to_list|]. split.
  { intros k'. rewrite list_elem_of_fmap. split.
    - intros ([k0 r] & -> & Hin). apply elem_of_map_to_list in Hin. eauto.
    - intros [r Hr]. exists (k', r). split; [done|]. by apply elem_of_map_to_list. }
  split.
  { rewrite on_connection_eq. simpl. rewrite map_size_insert.
    by destruct (clients s !! k). }
  split.
  - rewrite cleanupClient_clients, map_size_delete. by destruct (clients s !! k).
  - unfold disconnectClient. destruct (clients s !! k) eqn:E; simpl; [|done].
    by rewrite update_client_clients, map_size_delete, E.
Qed.

(** ** Loops over the registry *)

Section Entrywise.

(** A callback of [forEach] that only touches the entry it visits and the
    client object of that entry, and does so as a function of that object. *)
Variable f : nat -> string -> state -> state.
Variable keep : ClientConnection -> bool.
Variable upd : ClientConnection -> ClientConnection.

Hypothesis f_other_keys : forall r k acc k',
  k' <> k -> clients (f r k acc) !! k' = clients acc !! k'.
Hypothesis f_other_objects : forall r k acc r',
  r' <> r -> heap (f r k acc) !! r' = heap acc !! r'.
Hypothesis f_own : forall r k acc c,
  clients acc !! k = Some r -> heap acc !! r = Some c ->
  clients (f r k acc) !! k = (if keep c then Some r else None) /\
  heap (f r k acc) !! r = Some (upd c).
Hypothesis f_procs : forall r k acc, procs (f r k acc) = procs acc.
Hypothesis f_timers : forall r k acc, timers (f r k acc) = timers acc.

Lemma fold_entrywise (l : list (string * nat)) : forall acc,
  NoDup l.*1 -> NoDup l.*2 ->
  (forall k r, (k, r) ∈ l -> clients acc !! k = Some r /\ is_Some (heap acc !! r)) ->
  let res := fold_left
               (fun acc kv =>
                  match clients acc !! kv.1 with
                  | Some r => f r kv.1 acc
                  | None => acc
                  end) l acc in
  (forall k r c, (k, r) ∈ l -> heap acc !! r = Some c ->
     clients res !! k = (if keep c then Some r else None) /\
     heap res !! r = Some (upd c)) /\
  (forall k, k ∉ l.*1 -> clients res !! k = clients acc !! k) /\
  (forall r, r ∉ l.*2 -> heap res !! r = heap acc !! r) /\
  procs res = procs acc /\ timers res = timers acc.
Proof.
  induction l as [|[k0 r0] l IH]; intros acc Hk Hr Hl; simpl.
  - split; [|done]. intros k r c H. by apply elem_of_nil in H.
  - simpl in Hk, Hr. apply NoDup_cons in Hk as [Hk0 Hk], Hr as [Hr0 Hr].
    destruct (Hl k0 r0 ltac:(by left)) as [Hreg [c0 Hc0]]. rewrite Hreg.
    assert (Hne : forall k r, (k, r) ∈ l -> k <> k0 /\ r <> r0).
    { intros k r Hin. split; intros ->.
      - apply Hk0, list_elem_of_fmap. by exists (k0, r).
      - apply Hr0, list_elem_of_fmap. by exists (k, r0). }
    destruct (IH (f r0 k0 acc) Hk Hr) as (I1 & I2 & I3 & I4 & I5).
    { intros k r Hin. destruct (Hne k r Hin) as [Hnk Hnr].
      rewrite f_other_keys, f_other_objects by done. apply Hl. by right. }
    destruct (f_own r0 k0 acc c0 Hreg Hc0) as [Hown1 Hown2].
    split; [|split; [|split; [|split]]].
    + intros k r c Hin Hc. apply elem_of_cons in Hin as [[= -> ->]|Hin].
      * rewrite I2, I3 by done. rewrite Hc0 in Hc. injection Hc as <-. done.
      * destruct (Hne k r Hin) as [Hnk Hnr]. apply I1; [done|].
        by rewrite f_other_objects.
    + intros k Hnot. apply not_elem_of_cons in Hnot as [Hnk Hnot].
      rewrite I2 by done. by apply f_other_keys.
    + intros r Hnot. apply not_elem_of_cons in Hnot as [Hnr Hnot].
      rewrite I3 by done. by apply f_other_objects.
    + by rewrite I4, f_procs.
    + by rewrite I5, f_timers.
Qed.

(** The loop over a registry whose entries lead to distinct existing
    client objects. *)
Lemma forEach_entrywise s :
  well_formed s ->
  (forall k r c, clients s !! k = Some r -> heap s !! r = Some c ->
     clients (forEach f s) !! k = (if keep c then Some r else None) /\
     heap (forEach f s) !! r = Some (upd c)) /\
  (forall k, clients s !! k = None -> clients (forEach f s) !! k = None) /\
  (forall r, ~ registered r s -> heap (forEach f s) !! r = heap s !! r) /\
  procs (forEach f s) = procs s /\ timers (forEach f s) = timers s.
Proof.
  intros (W1 & _). unfold forEach.
  assert (Hin : forall k r, (k, r) ∈ map_to_list (clients s) <->
                            clients s !! k = Some r)
    by (intros; apply elem_of_map_to_list).
  assert (Hvals : NoDup (map_to_list (clients s)).*2).
  { apply NoDup_alt. intros i j r Hi Hj. rewrite list_lookup_fmap in Hi, Hj.
    destruct (map_to_list (clients s) !! i) as [[k1 r1]|] eqn:E1; [|done].
    destruct (map_to_list (clients s) !! j) as [[k2 r2]|] eqn:E2; [|done].
    simpl in Hi, Hj. injection Hi as ->. injection Hj as ->.
    assert (Hk1 : clients s !! k1 = Some r)
      by (apply Hin; by eapply list_elem_of_lookup_2).
    assert (Hk2 : clients s !! k2 = Some r)
      by (apply Hin; by eapply list_elem_of_lookup_2).
    destruct (W1 k1 r Hk1) as (c1 & Hc1 & <-).
    destruct (W1 k2 r Hk2) as (c2 & Hc2 & Hid). rewrite Hc1 in Hc2.
    injection Hc2 as <-.
    eapply (NoDup_lookup (map_to_list (clients s)).*1 i j (id c1));
      [apply NoDup_fst_map_to_list| |]; rewrite list_lookup_fmap.
    - by rewrite E1.
    - rewrite E2. simpl. by rewrite Hid. }
  destruct (fold_entrywise (map_to_list (clients s)) s
              (NoDup_fst_map_to_list _) Hvals) as (F1 & F2 & F3 & F4 & F5).
  { intros k r Hkr. apply Hin in Hkr. split; [done|].
    destruct (W1 k r Hkr) as (c & Hc & _). by exists c. }
  split; [|split; [|split; [|split]]]; try done.
  - intros k r c Hk Hc. apply F1; [by apply Hin|done].
  - intros k Hk. rewrite F2; [done|]. intros Hmem.
    apply list_elem_of_fmap in Hmem as ([k' r] & -> & Hmem).
    apply Hin in Hmem. simpl in Hk. congruence.
  - intros r Hr. apply F3. intros Hmem.
    apply list_elem_of_fmap in Hmem as ([k r'] & -> & Hmem).
    apply Hin in Hmem. apply Hr. by exists k.
Qed.

End Entrywise.

(** ** [broadcastToAll] *)

Lemma broadcast_client_clients m r k s :
  clients (broadcast_client m r k s) = clients s.
Proof.
  unfold broadcast_client. destruct (heap s !! r) as [c|]; [|done].
  destruct (is_open (readyState (ws c))); [apply update_client_clients|done].
Qed.

Lemma broadcast_client_lookup m r k s r' :
  heap (broadcast_client m r k s) !! r'
  = if decide (r = r') then broadcast_to m <$> heap s !! r' else heap s !! r'.
Proof.
  unfold broadcast_client, broadcast_to.
  destruct (decide (r = r')) as [->|Hne].
  - destruct (heap s !! r') as [c|] eqn:E; [|by rewrite E].
    destruct (is_open (readyState (ws c))) eqn:Ho.
    + rewrite update_client_lookup_eq, E. simpl. by rewrite Ho.
    + rewrite E. simpl. by rewrite Ho.
  - destruct (heap s !! r) as [c|]; [|done].
    destruct (is_open (readyState (ws c))); [|done].
    by rewrite update_client_lookup_ne.
Qed.

(** X5. In every state the service reaches, [broadcastToAll(data)] hands
    the text [JSON.stringify(data)] exactly once to the socket of every
    registered session whose socket is open, and does nothing else: sockets
    that are not open, client objects that left the registry, the registry
    itself, the processes and the timers are untouched. *)
Theorem broadcast_reaches_open_registered_sockets
    (parse : string -> option JsValue) (evs : list event) (data : JsValue) :
  (forall r c, registered r (run parse evs init) ->
     heap (run parse evs init) !! r = Some c ->
     exists c', heap (broadcastToAll data (run parse evs init)) !! r = Some c' /\
       id c' = id c /\ isAlive c' = isAlive c /\ lastPing c' = lastPing c /\
       ffmpegProcess c' = ffmpegProcess c /\
       readyState (ws c') = readyState (ws c) /\
       sent (ws c') = sent (ws c) ++
                      (if is_open (readyState (ws c)) then [FText data] else [])) /\
  (forall r, ~ registered r (run parse evs init) ->
     heap (broadcastToAll data (run parse evs init)) !! r
     = heap (run parse evs init) !! r) /\
  clients (broadcastToAll data (run parse evs init)) = clients (run parse evs init) /\
  procs (broadcastToAll data (run parse evs init)) = procs (run parse evs init) /\
  timers (broadcastToAll data (run parse evs init)) = timers (run parse evs init).
Proof.
  set (s := run parse evs init).
  pose proof (well_formed_reachable parse evs : well_formed s) as W.
  destruct (forEach_entrywise (broadcast_client (FText data)) (fun _ => true)
              (broadcast_to (FText data))) with (s := s)
    as (F1 & F2 & F3 & F4 & F5); try done.
  - intros r k acc k' _. by rewrite broadcast_client_clients.
  - intros r k acc r' Hne. rewrite broadcast_client_lookup.
    by rewrite decide_False by done.
  - intros r k acc c Hk Hc. rewrite broadcast_client_clients.
    split; [done|]. rewrite broadcast_client_lookup, decide_True by done.
    by rewrite Hc.
  - intros r k acc. unfold broadcast_client.
    destruct (heap acc !! r) as [c|]; [|done].
    destruct (is_open (readyState (ws c))); [apply update_client_procs|done].
  - intros r k acc. unfold broadcast_client.
    destruct (heap acc !! r) as [c|]; [|done].
    destruct (is_open (readyState (ws c))); [apply update_client_timers|done].
  - unfold broadcastToAll. split; [|split; [done|split; [|done]]].
    + intros r c [k Hk] Hc. destruct (F1 k r c Hk Hc) as [_ Hobj].
      exists (broadcast_to (FText data) c). split; [done|].
      unfold broadcast_to, Ws.send.
      destruct (is_open (readyState (ws c))) eqn:Ho; simpl; rewrite ?Ho; simpl;
        rewrite ?app_nil_r; by repeat split.
    + apply map_eq. intros k. destruct (clients s !! k) as [r|] eqn:Hk.
      * destruct W as (W1 & _). destruct (W1 k r Hk) as (c & Hc & _).
        by destruct (F1 k r c Hk Hc).
      * by apply F2.
Qed.

(** ** The monitor, session by session *)

Lemma ping_client_other_keys now r k s k' :
  k' <> k -> clients (ping_client now r k s) !! k' = clients s !! k'.
Proof.
  intros Hne. unfold ping_client. destruct (heap s !! r) as [c|]; [|done].
  destruct (negb (is_open (readyState (ws c))));
    [simpl; by rewrite lookup_delete_ne|].
  destruct (now - lastPing c >? PONG_TIMEOUT);
    [simpl; by rewrite lookup_delete_ne, update_client_clients|].
  destruct (negb (isAlive c));
    [simpl; by rewrite lookup_delete_ne, update_client_clients|].
  destruct (Ws.ping (ws c)).
  - by rewrite update_client_clients.
  - simpl. by rewrite lookup_delete_ne, update_client_clients.
Qed.

Lemma ping_client_other_objects now r k s r' :
  r' <> r -> heap (ping_client now r k s) !! r' = heap s !! r'.
Proof.
  intros Hne. unfold ping_client. destruct (heap s !! r) as [c|]; [|done].
  destruct (negb (is_open (readyState (ws c)))); [done|].
  destruct (now - lastPing c >? PONG_TIMEOUT);
    [simpl; by rewrite update_client_lookup_ne|].
  destruct (negb (isAlive c)); [simpl; by rewrite update_client_lookup_ne|].
  destruct (Ws.ping (ws c)); simpl; by rewrite update_client_lookup_ne.
Qed.

Lemma ping_client_own now r k s c :
  clients s !! k = Some r -> heap s !! r = Some c ->
  clients (ping_client now r k s) !! k = (if survives now c then Some r else None) /\
  heap (ping_client now r k s) !! r = Some (pinged now c).
Proof.
  intros Hk Hc. unfold ping_client, survives, pinged, survives. rewrite Hc.
  destruct (is_open (readyState (ws c))) eqn:Ho; simpl.
  - destruct (now - lastPing c >? PONG_TIMEOUT); simpl.
    + by rewrite lookup_delete_eq, update_client_lookup_eq, Hc.
    + destruct (isAlive c); simpl.
      * unfold Ws.ping. rewrite Ho.
        by rewrite update_client_clients, update_client_lookup_eq, Hc.
      * by rewrite lookup_delete_eq, update_client_lookup_eq, Hc.
  - by rewrite lookup_delete_eq.
Qed.

(** The tick of the monitor on a well-formed state. *)
Lemma ping_tick_entrywise now s :
  well_formed s -> pingInterval s = true ->
  (forall k r c, clients s !! k = Some r -> heap s !! r = Some c ->
     clients (ping_tick now s) !! k = (if survives now c then Some r else None) /\
     heap (ping_tick now s) !! r = Some (pinged now c)) /\
  (forall k, clients s !! k = None -> clients (ping_tick now s) !! k = None) /\
  (forall r, ~ registered r s -> heap (ping_tick now s) !! r = heap s !! r).
Proof.
  intros W Hint. unfold ping_tick. rewrite Hint.
  destruct (forEach_entrywise (ping_client now) (survives now) (pinged now))
    with (s := s) as (F1 & F2 & F3 & _); try done.
  - intros. by apply ping_client_other_keys.
  - intros. by apply ping_client_other_objects.
  - intros. by apply ping_client_own.
  - intros. apply ping_client_procs.
  - intros. apply ping_client_timers.
Qed.

(** X6. What a tick of the monitor does, in every state the service
    reaches.  With the interval cleared it does nothing.  Otherwise every
    registered session is judged once and on its own: it stays registered
    exactly when its socket is open, its last refresh is at most
    [PONG_TIMEOUT] old and its alive flag is set, and is then sent one probe
    and has its alive flag cleared; a session that fails the test on an open
    socket has the socket terminated, one whose socket is not open is only
    dropped.  Nothing is added to the registry, unregistered client objects
    are untouched, and no process and no timer changes. *)
Theorem monitor_tick_outcome (parse : string -> option JsValue)
    (evs : list event) (now : Z) :
  (pingInterval (run parse evs init) = false ->
     ping_tick now (run parse evs init) = run parse evs init) /\
  (pingInterval (run parse evs init) = true ->
     (forall k r c, clients (run parse evs init) !! k = Some r ->
        heap (run parse evs init) !! r = Some c ->
        clients (ping_tick now (run parse evs init)) !! k
          = (if survives now c then Some r else None) /\
        heap (ping_tick now (run parse evs init)) !! r = Some (pinged now c)) /\
     (forall k, clients (run parse evs init) !! k = None ->
        clients (ping_tick now (run parse evs init)) !! k = None) /\
     (forall r, ~ registered r (run parse evs init) ->
        heap (ping_tick now (run parse evs init)) !! r
        = heap (run parse evs init) !! r)) /\
  procs (ping_tick now (run parse evs init)) = procs (run parse evs init) /\
  timers (ping_tick now (run parse evs init)) = timers (run parse evs init).
Proof.
  split; [intros H; unfold ping_tick; by rewrite H|].
  split; [intros H; by apply ping_tick_entrywise, H;
          apply well_formed_reachable|].
  split; [apply ping_tick_procs|].
  unfold ping_tick. destruct (pingInterval _); [|done].
  apply (forEach_invariant (fun acc => timers acc = timers (run parse evs init)));
    [done|].
  intros r k acc Hacc _. by rewrite ping_client_timers.
Qed.

(** X7. What keeps a session: in every state the service reaches, a
    registered session with an open socket whose pong arrives at time [t]
    survives a tick at [now] whenever [now - t <= PONG_TIMEOUT]; it is then
    sent a probe and waits for the answer with its alive flag cleared. *)
Theorem pong_within_timeout_survives (parse : string -> option JsValue)
    (evs : list event) (r : nat) (c : ClientConnection) (t now : Z) :
  heap (run parse evs init) !! r = Some c ->
  clients (run parse evs init) !! id c = Some r ->
  readyState (ws c) = OPEN ->
  pingInterval (run parse evs init) = true ->
  now - t <= PONG_TIMEOUT ->
  clients (run parse (evs ++ [Pong r t; PingTick now]) init) !! id c = Some r /\
  heap (run parse (evs ++ [Pong r t; PingTick now]) init) !! r
    = Some (mkClient (id c) (mkWs OPEN (sent (ws c)) (S (pings (ws c)))
                                   (terminated (ws c)))
                     false t (ffmpegProcess c)).
Proof.
  intros Hc Hk Hopen Hint Hfresh. rewrite !run_app.
  set (s := run parse evs init) in *.
  pose proof (well_formed_reachable parse evs : well_formed s) as W.
  assert (He : step parse (Pong r t) s = update_client r (set_alive true t) s).
  { simpl. unfold id_of. rewrite Hc. simpl. unfold on_pong. by rewrite Hk. }
  change (run parse [Pong r t; PingTick now] s)
    with (ping_tick now (step parse (Pong r t) s)).
  rewrite He.
  set (s1 := update_client r (set_alive true t) s).
  assert (W1 : well_formed s1).
  { apply well_formed_update_client; [|done]. intros c' _. split; [done|by left]. }
  assert (Hc1 : heap s1 !! r = Some (set_alive true t c))
    by (unfold s1; by rewrite update_client_lookup_eq, Hc).
  assert (Hk1 : clients s1 !! id c = Some r)
    by (unfold s1; by rewrite update_client_clients).
  assert (Hint1 : pingInterval s1 = true)
    by (unfold s1; by rewrite update_client_pingInterval).
  destruct (ping_tick_entrywise now s1 W1 Hint1) as (F1 & _).
  destruct (F1 (id c) r _ Hk1 Hc1) as [Hreg Hobj].
  assert (Hsurv : survives now (set_alive true t c) = true).
  { unfold survives. simpl. rewrite Hopen. simpl.
    destruct (now - t >? PONG_TIMEOUT) eqn:E; [lia|done]. }
  rewrite Hsurv in Hreg. split; [done|]. rewrite Hobj. unfold pinged.
  rewrite Hsurv. simpl. by rewrite Hopen.
Qed.

(** The theorem on a fresh session: pong 25 s before the tick. *)
Lemma pong_within_timeout_survives_witness :
  clients (run heartbeat_parser
             ([Connection "c1" 0 (SpawnReturns true)]
              ++ [Pong 0%nat 35000; PingTick 60000]) init)
    !! "c1"%string = Some 0%nat.
Proof.
  exact (proj1 (pong_within_timeout_survives heartbeat_parser
           [Connection "c1" 0 (SpawnReturns true)] 0%nat
           (mkClient "c1" (mkWs OPEN [FText (connection_msg "c1")] 0 false)
                     true 0 (Some 0%nat))
           35000 60000
           eq_refl eq_refl eq_refl eq_refl ltac:(vm_compute; discriminate))).
Defined.

(** ** Heartbeats sent as text frames *)

Lemma sendToFFmpeg_pingInterval k b s :
  pingInterval (sendToFFmpeg k b s) = pingInterval s.
Proof.
  unfold sendToFFmpeg. destruct (clients s !! k) as [r|]; [|done].
  destruct (heap s !! r) as [c|]; [|done].
  destruct (ffmpegProcess c) as [pid|]; [|done].
  destruct (procs s !! pid) as [p|] eqn:E; [|done].
  destruct (killed p); [done|].
  destruct (negb (stdin_destroyed p)); [|done].
  unfold update_proc. by rewrite E.
Qed.

(** X17. A heartbeat sent as a text frame does not count.  The handler
    recognises a heartbeat only in data of type string, and the library
    delivers a text frame as a [Buffer]: so in every state the service
    reaches, a text frame, whatever its content, leaves the liveness
    timestamp and the alive flag of every session as they were and, when it
    is not empty and the session's process is writable, is written to the
    transcoder's stdin like a media frame; a registered session whose last
    refresh is more than [PONG_TIMEOUT] old at the next tick is removed from
    the registry by that tick, however recently the frame arrived. *)
Theorem text_heartbeat_does_not_refresh (parse : string -> option JsValue)
    (evs : list event) (r : nat) (c : ClientConnection) (text : string)
    (t now : Z) :
  heap (run parse evs init) !! r = Some c ->
  clients (run parse evs init) !! id c = Some r ->
  pingInterval (run parse evs init) = true ->
  now - lastPing c > PONG_TIMEOUT ->
  heap (step parse (Message r (message_data (TextFrame text)) t)
             (run parse evs init))
    = heap (run parse evs init) /\
  (forall pid, nonempty (list_byte_of_string text) = true ->
     writable_process (run parse evs init) c = Some pid ->
     step parse (Message r (message_data (TextFrame text)) t) (run parse evs init)
     = update_proc pid (Proc.write (list_byte_of_string text))
                   (run parse evs init)) /\
  clients (run parse (evs ++ [Message r (message_data (TextFrame text)) t;
                              PingTick now]) init) !! id c = None.
Proof.
  intros Hc Hk Hint Hold. rewrite run_app.
  set (s := run parse evs init) in *.
  pose proof (well_formed_reachable parse evs : well_formed s) as W.
  set (e := Message r (message_data (TextFrame text)) t).
  assert (He : step parse e s
               = if nonempty (list_byte_of_string text)
                 then sendToFFmpeg (id c) (list_byte_of_string text) s else s).
  { simpl. unfold id_of. rewrite Hc. reflexivity. }
  assert (Hheap : heap (step parse e s) = heap s).
  { rewrite He. destruct (nonempty _); [apply sendToFFmpeg_heap|done]. }
  assert (Hclients : clients (step parse e s) = clients s).
  { rewrite He. destruct (nonempty _); [apply sendToFFmpeg_clients|done]. }
  assert (Hint1 : pingInterval (step parse e s) = true).
  { rewrite He. destruct (nonempty _); [by rewrite sendToFFmpeg_pingInterval|done]. }
  split; [done|]. split.
  - intros pid Hne Hw. rewrite He, Hne. by eapply sendToFFmpeg_writable.
  - change (run parse [e; PingTick now] s) with (ping_tick now (step parse e s)).
    destruct (ping_tick_entrywise now (step parse e s)
                (well_formed_step parse e s W) Hint1) as (F1 & _).
    destruct (F1 (id c) r c) as [Hreg _];
      [by rewrite Hclients | by rewrite Hheap |].
    rewrite Hreg. unfold survives.
    replace (now - lastPing c >? PONG_TIMEOUT) with true
      by (symmetry; apply Z.gtb_lt; lia).
    simpl. by rewrite andb_false_r.
Qed.

(** The theorem on a fresh session: the text [{"type":"heartbeat"}] arrives
    25 s before the tick at 60 s, is written to the transcoder, and the
    session is gone after the tick. *)
Lemma text_heartbeat_does_not_refresh_witness :
  clients (run heartbeat_parser
             ([Connection "c1" 0 (SpawnReturns true)]
              ++ [Message 0%nat (message_data (TextFrame heartbeat_text)) 35000;
                  PingTick 60000]) init)
    !! "c1"%string = None.
Proof.
  exact (proj2 (proj2 (text_heartbeat_does_not_refresh heartbeat_parser
           [Connection "c1" 0 (SpawnReturns true)] 0%nat
           (mkClient "c1" (mkWs OPEN [FText (connection_msg "c1")] 0 false)
                     true 0 (Some 0%nat))
           heartbeat_text 35000 60000
           eq_refl eq_refl eq_refl ltac:(vm_compute; reflexivity)))).
Defined.

(** ** Sessions that left the registry *)

Lemma run_registry_none parse evs s k :
  Forall (fun e => reuses_id k e = false) evs ->
  clients s !! k = None -> clients (run parse evs s) !! k = None.
Proof.
  intros Hevs Hk.
  destruct (run_registry parse evs s k 0%nat Hevs (or_introl Hk)) as [H0|H0];
    [done|].
  destruct (run_registry parse evs s k 1%nat Hevs (or_introl Hk)) as [H1|H1];
    [done|congruence].
Qed.

(** X8. A session that has left the registry never comes back: as long as
    its id is not handed out to a new connection, whatever events follow,
    its id stays unregistered, and the frames, heartbeats and pongs that
    still arrive on its socket change nothing at all. *)
Theorem unregistered_session_stays_out (parse : string -> option JsValue)
    (s : state) (r : nat) (c : ClientConnection) (evs : list event)
    (data : WsData) (now : Z) :
  heap s !! r = Some c ->
  clients s !! id c = None ->
  Forall (fun e => reuses_id (id c) e = false) evs ->
  clients (run parse evs s) !! id c = None /\
  step parse (Message r data now) (run parse evs s) = run parse evs s /\
  step parse (Pong r now) (run parse evs s) = run parse evs s /\
  step parse (WsError r) (run parse evs s) = run parse evs s.
Proof.
  intros Hc Hk Hevs.
  pose proof (run_registry_none parse evs s (id c) Hevs Hk) as Hk'.
  destruct (run_object parse evs s r c Hc) as (c' & Hc' & Hid & _).
  split; [done|]. simpl. unfold id_of. rewrite Hc'. simpl. rewrite Hid.
  split; [|split].
  - unfold on_message. destruct (is_heartbeat parse data); [by rewrite Hk'|].
    destruct (negb (length (toBuffer data) =? 0)%nat); [|done].
    by apply sendToFFmpeg_unregistered.
  - unfold on_pong. by rewrite Hk'.
  - by apply cleanupClient_unregistered.
Qed.

(** The theorem on a session evicted by the monitor. *)
Lemma unregistered_session_stays_out_witness :
  let s := run heartbeat_parser
             [Connection "c1" 0 (SpawnReturns true); PingTick 60000] init in
  clients (run heartbeat_parser [PingTick 120000] s) !! "c1"%string = None /\
  step heartbeat_parser (Message 0%nat (DString heartbeat_text) 120001)
    (run heartbeat_parser [PingTick 120000] s)
  = run heartbeat_parser [PingTick 120000] s.
Proof.
  intros s.
  pose proof (unregistered_session_stays_out heartbeat_parser s 0%nat
                (mkClient "c1" (mkWs CLOSING [FText (connection_msg "c1")] 0 true)
                          true 0 (Some 0%nat))
                [PingTick 120000] (DString heartbeat_text) 120001
                eq_refl eq_refl ltac:(repeat constructor)) as (H1 & H2 & _).
  split; [exact H1 | exact H2].
Defined.

(** X9. [disconnectClient] leaks the transcoder: in every state the
    service reaches, after [disconnectClient(id)] on a registered session
    and the ['close'] event of its socket that follows, no process has
    received a signal or changed in any way, and no force-kill timeout has
    been armed: [cleanupClient] finds the entry already gone. *)
Theorem disconnect_then_close_signals_nothing (parse : string -> option JsValue)
    (evs : list event) (k : string) (r : nat) :
  clients (run parse evs init) !! k = Some r ->
  procs (run parse (evs ++ [DisconnectClient k; WsClose r]) init)
    = procs (run parse evs init) /\
  timers (run parse (evs ++ [DisconnectClient k; WsClose r]) init)
    = timers (run parse evs init) /\
  clients (run parse (evs ++ [DisconnectClient k; WsClose r]) init)
    = delete k (clients (run parse evs init)).
Proof.
  intros Hk. rewrite run_app. set (s := run parse evs init) in *.
  destruct (well_formed_reachable parse evs : well_formed s) as (W1 & _).
  destruct (W1 k r Hk) as (c & Hc & Hid).
  simpl. unfold disconnectClient. rewrite Hk. simpl.
  set (s1 := clients_delete k _).
  assert (Hid1 : id_of r s1 = Some k).
  { unfold id_of, s1. simpl. rewrite update_client_lookup_eq, Hc. simpl.
    by rewrite Hid. }
  rewrite Hid1. rewrite cleanupClient_unregistered.
  - rewrite update_client_procs, update_client_timers, update_client_clients.
    unfold s1. simpl.
    by rewrite !update_client_procs, !update_client_timers, !update_client_clients.
  - rewrite update_client_clients. unfold s1. simpl. apply lookup_delete_eq.
Qed.

(** The theorem on a session with a running transcoder. *)
Lemma disconnect_then_close_signals_nothing_witness :
  procs (run heartbeat_parser
           ([Connection "c1" 0 (SpawnReturns true)]
            ++ [DisconnectClient "c1"; WsClose 0%nat]) init)
  = [mkProc 0 false true false [] []].
Proof.
  exact (proj1 (disconnect_then_close_signals_nothing heartbeat_parser
                  [Connection "c1" 0 (SpawnReturns true)] "c1"%string 0%nat
                  eq_refl)).
Defined.

(** ** After [close()] *)

Lemma forEach_empty f s : clients s = ∅ -> forEach f s = s.
Proof. intros H. unfold forEach. by rewrite H, map_to_list_empty. Qed.

Lemma close_is_final_state s : close (close s) = close s.
Proof.
  assert (Hc : clients (close s) = ∅) by apply close_clients.
  assert (Hp : pingInterval (close s) = false) by apply close_pingInterval.
  assert (Hw : wss_closed (close s) = true) by done.
  revert Hc Hp Hw. generalize (close s). intros t H1 H2 H3.
  unfold close. rewrite forEach_empty by done.
  destruct t. simpl in *. by subst.
Qed.

(** X10. [close()] is idempotent, and once it has run the monitor is off:
    a second [close()] and any later tick of the interval leave the state
    as the first [close()] left it. *)
Theorem close_is_final (s : state) (now : Z) :
  close (close s) = close s /\
  ping_tick now (close s) = close s /\
  getConnectedClients (close s) = 0%nat.
Proof.
  assert (Hc : clients (close s) = ∅) by apply close_clients.
  assert (Hp : pingInterval (close s) = false) by apply close_pingInterval.
  assert (Hw : wss_closed (close s) = true) by done.
  split; [|split].
  - apply close_is_final_state.
  - unfold ping_tick. by rewrite Hp.
  - unfold getConnectedClients. by rewrite Hc, map_size_empty.
Qed.

(** ** Mock detections *)

Lemma floor_of_draw (r : Q) (k : Z) :
  (0 < k)%Z -> (0 <= r)%Q /\ (r < 1)%Q ->
  (0 <= Qfloor (r * inject_Z k) < k)%Z.
Proof.
  intros Hk [H0 H1].
  assert (Hk' : (0 < inject_Z k)%Q).
  { change 0%Q with (inject_Z 0). rewrite <- Zlt_Qlt. lia. }
  split.
  - change 0%Z with (Qfloor (inject_Z 0)). apply Qfloor_resp_le.
    apply Qmult_le_0_compat; [assumption|]. apply Qlt_le_weak, Hk'.
  - rewrite Zlt_Qlt. eapply Qle_lt_trans; [apply Qfloor_le|].
    eapply Qlt_le_trans; [apply Qmult_lt_compat_r; eassumption|].
    rewrite Qmult_1_l. apply Qle_refl.
Qed.

Lemma label_or_object_in_labels (i : Z) :
  (0 <= i < 8)%Z -> Mock.label_or_object i ∈ Mock.labels.
Proof.
  intros Hi.
  assert (Hcases : i = 0 \/ i = 1 \/ i = 2 \/ i = 3 \/ i = 4 \/ i = 5 \/ i = 6
                   \/ i = 7) by lia.
  destruct Hcases as [->|[->|[->|[->|[->|[->|[->| ->]]]]]]];
    vm_compute; repeat first [by left | right].
Qed.

Lemma detections_from_shape rand : forall n next i,
  (forall m, (0 <= rand m)%Q /\ (rand m < 1)%Q) ->
  length (Mock.detections_from rand next i n) = n /\
  Mock.det_id <$> Mock.detections_from rand next i n
    = (fun j => i + 1 + Z.of_nat j) <$> seq 0 n /\
  Forall (fun d => Mock.label d ∈ Mock.labels) (Mock.detections_from rand next i n).
Proof.
  induction n as [|n IH]; intros next i Hrand; simpl; [done|].
  destruct (IH (next + 6)%nat (i + 1) Hrand) as (IH1 & IH2 & IH3).
  split; [by rewrite IH1|]. split.
  - f_equal; [lia|].
    change (Mock.det_id <$> Mock.detections_from rand (next + 6) (i + 1) n
            = (fun j => i + 1 + Z.of_nat j) <$> seq 1 n).
    rewrite IH2, <- fmap_S_seq, <- list_fmap_compose.
    apply list_fmap_ext. intros _ j _. simpl. lia.
  - constructor; [|done]. simpl. apply label_or_object_in_labels.
    apply (floor_of_draw (rand next) 8); [lia|apply Hrand].
Qed.

(** X11. The mock detections: whatever [Math.random] returns (doubles in
    [0, 1)), a call yields at most three detections, numbered 1, 2, ... in
    order, and every label is one of the eight of the table: the fallback
    ['object'] is never used. *)
Theorem mock_detections_shape (rand : nat -> Q) :
  (forall m, (0 <= rand m)%Q /\ (rand m < 1)%Q) ->
  (length (Mock.generateMockDetections rand) <= 3)%nat /\
  Mock.det_id <$> Mock.generateMockDetections rand
    = Z.of_nat <$> seq 1 (length (Mock.generateMockDetections rand)) /\
  Forall (fun d => Mock.label d ∈ Mock.labels /\ Mock.label d <> "object"%string)
         (Mock.generateMockDetections rand).
Proof.
  intros Hrand. unfold Mock.generateMockDetections.
  pose proof (floor_of_draw (rand 0%nat) 4 ltac:(lia) (Hrand 0%nat)) as Hn.
  change (inject_Z 4) with 4%Q in Hn.
  set (n := Z.to_nat (Qfloor (rand 0%nat * 4))).
  destruct (detections_from_shape rand n 1%nat 0 Hrand) as (H1 & H2 & H3).
  split; [rewrite H1; lia|]. split.
  - rewrite H2, H1, <- fmap_S_seq, <- list_fmap_compose.
    apply list_fmap_ext. intros _ j _. simpl. lia.
  - eapply Forall_impl; [exact H3|]. intros d Hd. simpl in Hd. split; [done|].
    intros Heq. rewrite Heq in Hd. vm_compute in Hd.
    repeat (apply elem_of_cons in Hd as [Hd|Hd]; [discriminate Hd|]).
    by apply elem_of_nil in Hd.
Qed.

(** The theorem for a generator that always returns one half. *)
Lemma mock_detections_shape_witness :
  Mock.label <$> Mock.generateMockDetections (fun _ => (1 # 2)%Q)
  = ["cat"; "cat"]%string /\
  Mock.det_id <$> Mock.generateMockDetections (fun _ => (1 # 2)%Q) = [1; 2].
Proof.
  pose proof (mock_detections_shape (fun _ => (1 # 2)%Q)
                ltac:(intros; split; [discriminate | reflexivity])) as (_ & H & _).
  split; [reflexivity | exact H].
Defined.

(** ** [SimpleVideoProcessor]: batches of five *)

Lemma simple_update_lookup_eq r f s :
  Simple.heap (Simple.update_client r f s) !! r = f <$> Simple.heap s !! r.
Proof.
  unfold Simple.update_client. destruct (Simple.heap s !! r) as [c|] eqn:E; simpl.
  - rewrite list_lookup_insert_eq; [done|]. by eapply lookup_lt_Some.
  - by rewrite E.
Qed.

Lemma simple_update_clients r f s :
  Simple.clients (Simple.update_client r f s) = Simple.clients s.
Proof. unfold Simple.update_client. by destruct (Simple.heap s !! r). Qed.

(** One inbound frame on a client object, by cases. *)
Lemma simple_on_message r c data s :
  Simple.heap s !! r = Some c ->
  let b := toBuffer data in
  let s' := Simple.on_message r (Simple.id c) data s in
  Simple.clients s' = Simple.clients s /\
  Simple.heap s' !! r
  = Some (if nonempty b
          then if (5 <=? S (length (Simple.videoBuffer c)))%nat
               then match Simple.clients s !! Simple.id c with
                    | Some r' =>
                        if decide (r' = r) then Simple.flush (Simple.push b c)
                        else Simple.push b c
                    | None => Simple.push b c
                    end
               else Simple.push b c
          else c).
Proof.
  intros Hc b s'. unfold s', Simple.on_message. fold b. unfold nonempty.
  destruct (negb (length b =? 0)%nat) eqn:Hb; [|done].
  set (s1 := Simple.update_client r (Simple.push b) s).
  assert (Hc1 : Simple.heap s1 !! r = Some (Simple.push b c))
    by (unfold s1; by rewrite simple_update_lookup_eq, Hc).
  assert (Hk1 : Simple.clients s1 = Simple.clients s)
    by apply simple_update_clients.
  rewrite Hc1.
  change (Simple.videoBuffer (Simple.push b c)) with (Simple.videoBuffer c ++ [b]).
  rewrite length_app. change (length [b]) with 1%nat.
  replace (length (Simple.videoBuffer c) + 1)%nat
    with (S (length (Simple.videoBuffer c))) by lia.
  destruct (5 <=? S (length (Simple.videoBuffer c)))%nat; [|by split].
  unfold Simple.processVideoBuffer. rewrite Hk1.
  destruct (Simple.clients s !! Simple.id c) as [r'|]; [|by split].
  destruct (decide (r' = r)) as [->|Hne].
  - rewrite Hc1.
    change (Simple.videoBuffer (Simple.push b c)) with (Simple.videoBuffer c ++ [b]).
    rewrite length_app. change (length [b]) with 1%nat.
    replace (length (Simple.videoBuffer c) + 1 =? 0)%nat with false
      by (symmetry; apply Nat.eqb_neq; lia).
    by rewrite simple_update_clients, simple_update_lookup_eq, Hc1.
  - destruct (Simple.heap s1 !! r') as [c'|] eqn:Hc'; [|by split].
    destruct (length (Simple.videoBuffer c') =? 0)%nat; [by split|].
    rewrite simple_update_clients. split; [done|].
    unfold Simple.update_client. rewrite Hc'. simpl.
    by rewrite list_lookup_insert_ne.
Qed.

Lemma simple_bytes_cons data chunks :
  Simple.bytes_of (data :: chunks) = toBuffer data ++ Simple.bytes_of chunks.
Proof. done. Qed.

Lemma simple_count_cons data chunks :
  Simple.count_nonempty (data :: chunks)
  = ((if nonempty (toBuffer data) then 1 else 0) + Simple.count_nonempty chunks)%nat.
Proof.
  unfold Simple.count_nonempty. rewrite filter_cons.
  destruct (nonempty (toBuffer data)) eqn:E.
  - by rewrite decide_True.
  - by rewrite decide_False by (by intros ?).
Qed.

Lemma simple_messages_cons r data chunks s :
  Simple.messages r (data :: chunks) s
  = Simple.messages r chunks
      match Simple.heap s !! r with
      | Some c => Simple.on_message r (Simple.id c) data s
      | None => s
      end.
Proof. done. Qed.

#[local] Arguments Nat.modulo : simpl never.
#[local] Arguments Nat.div : simpl never.

Lemma batch_arith (n : nat) :
  ((4 + (1 + n)) mod 5 = n mod 5 /\ (4 + (1 + n)) / 5 = S (n / 5))%nat.
Proof.
  replace (4 + (1 + n))%nat with (n + 1 * 5)%nat by lia.
  rewrite Nat.Div0.mod_add, Nat.div_add by lia. split; [done|simpl; lia].
Qed.

(** X12. The echo in batches of five, on a registered session with an
    open socket that starts with fewer than five chunks buffered: whatever
    frames arrive, no byte is lost or reordered (what the client has been
    sent in binary frames followed by what is still buffered is what it was
    before followed by the bytes of the frames); the empty frames are
    ignored, a binary frame goes out at every fifth non-empty frame, and
    fewer than five chunks remain buffered. *)
Theorem simple_echo_in_batches (chunks : list WsData) : forall (s : Simple.state)
    (r : nat) (c : Simple.Client),
  Simple.heap s !! r = Some c ->
  Simple.clients s !! Simple.id c = Some r ->
  readyState (Simple.ws c) = OPEN ->
  (length (Simple.videoBuffer c) < 5)%nat ->
  exists c', Simple.heap (Simple.messages r chunks s) !! r = Some c' /\
    Simple.echoed c' ++ Simple.buffered c'
      = Simple.echoed c ++ Simple.buffered c ++ Simple.bytes_of chunks /\
    length (Simple.videoBuffer c')
      = ((length (Simple.videoBuffer c) + Simple.count_nonempty chunks) mod 5)%nat /\
    length (sent (Simple.ws c'))
      = (length (sent (Simple.ws c))
         + (length (Simple.videoBuffer c) + Simple.count_nonempty chunks) / 5)%nat /\
    Simple.clients (Simple.messages r chunks s) = Simple.clients s.
Proof.
  induction chunks as [|data chunks IH]; intros s r c Hc Hk Hopen Hlen.
  - exists c. split; [done|].
    change (Simple.count_nonempty []) with 0%nat.
    rewrite Nat.add_0_r, Nat.mod_small, Nat.div_small by lia.
    split; [unfold Simple.bytes_of; simpl; by rewrite !app_nil_r|].
    split; [done|]. split; [lia|done].
  - rewrite simple_messages_cons, Hc.
    destruct (simple_on_message r c data s Hc) as [Hk1 Hc1].
    rewrite Hk, decide_True in Hc1 by done.
    rewrite simple_bytes_cons, simple_count_cons.
    set (s1 := Simple.on_message r (Simple.id c) data s) in *.
    destruct (nonempty (toBuffer data)) eqn:Hne.
    + destruct (5 <=? S (length (Simple.videoBuffer c)))%nat eqn:Hfull.
      * apply Nat.leb_le in Hfull.
        assert (Hfour : length (Simple.videoBuffer c) = 4%nat) by lia.
        destruct (IH s1 r _ Hc1) as (c' & Hc' & Hbytes & Hbuf & Hsent & Hcl).
        { simpl. by rewrite Hk1. }
        { simpl. rewrite Hopen. simpl. unfold Ws.send. by rewrite Hopen. }
        { simpl. lia. }
        exists c'. split; [done|]. rewrite Hbytes, Hbuf, Hsent, Hcl, Hk1.
        rewrite Hfour.
        destruct (batch_arith (Simple.count_nonempty chunks)) as [-> ->].
        unfold Simple.echoed, Simple.buffered, Simple.flush, Simple.push. simpl.
        rewrite Hopen. simpl. unfold Ws.send. rewrite Hopen. simpl.
        rewrite omap_app, !concat_app, length_app. simpl.
        rewrite ?app_nil_r, <- ?app_assoc.
        split; [done|]. split; [done|]. split; [lia|done].
      * apply Nat.leb_gt in Hfull.
        destruct (IH s1 r _ Hc1) as (c' & Hc' & Hbytes & Hbuf & Hsent & Hcl).
        { simpl. by rewrite Hk1. }
        { done. }
        { simpl. rewrite length_app. simpl. lia. }
        exists c'. split; [done|]. rewrite Hbytes, Hbuf, Hsent, Hcl, Hk1.
        unfold Simple.echoed, Simple.buffered, Simple.push. simpl.
        rewrite length_app, concat_app. simpl.
        rewrite ?app_nil_r, <- ?app_assoc.
        replace (length (Simple.videoBuffer c) + 1
                 + Simple.count_nonempty chunks)%nat
          with (length (Simple.videoBuffer c)
                + (1 + Simple.count_nonempty chunks))%nat by lia.
        by repeat split.
    + apply nonempty_false in Hne. rewrite Hne.
      destruct (IH s1 r c Hc1) as (c' & Hc' & Hbytes & Hbuf & Hsent & Hcl);
        [by rewrite Hk1 | done | done |].
      exists c'. rewrite Hk1 in Hcl. simpl. by repeat split.
Qed.

(** The theorem on a fresh session that receives six chunks, one of them
    empty: one batch of five goes out. *)
Lemma simple_echo_in_batches_witness :
  let c := Simple.mkClient "c1" Ws.fresh true 0 [] None in
  let s := Simple.mkState {[ "c1"%string := 0%nat ]} [c] in
  let chunks := [DBuffer [Byte.x01]; DBuffer [Byte.x02]; DBuffer [];
                 DBuffer [Byte.x03]; DBuffer [Byte.x04]; DBuffer [Byte.x05]] in
  exists c', Simple.heap (Simple.messages 0 chunks s) !! 0%nat = Some c' /\
    length (sent (Simple.ws c')) = 1%nat /\
    length (Simple.videoBuffer c') = 0%nat.
Proof.
  intros c s chunks.
  destruct (simple_echo_in_batches chunks s 0%nat c eq_refl eq_refl eq_refl
              ltac:(simpl; lia)) as (c' & H1 & _ & H2 & H3 & _).
  exists c'. split; [exact H1|]. split; [exact H3 | exact H2].
Defined.

Lemma simple_unregistered_grows chunks : forall s r c,
  Simple.heap s !! r = Some c ->
  Simple.clients s !! Simple.id c = None ->
  exists c', Simple.heap (Simple.messages r chunks s) !! r = Some c' /\
    Simple.id c' = Simple.id c /\ Simple.ws c' = Simple.ws c /\
    Simple.videoBuffer c'
    = Simple.videoBuffer c
      ++ filter (fun b => nonempty b = true) (toBuffer <$> chunks).
Proof.
  induction chunks as [|data chunks IH]; intros s r c Hc Hk.
  - exists c. simpl. by rewrite app_nil_r.
  - rewrite simple_messages_cons, Hc.
    destruct (simple_on_message r c data s Hc) as [Hk1 Hc1]. rewrite Hk in Hc1.
    rewrite fmap_cons, filter_cons.
    destruct (nonempty (toBuffer data)) eqn:Hne.
    + rewrite decide_True by done.
      assert (Hc2 : Simple.heap (Simple.on_message r (Simple.id c) data s) !! r
                    = Some (Simple.push (toBuffer data) c)).
      { rewrite Hc1. by destruct (5 <=? S (length (Simple.videoBuffer c)))%nat. }
      destruct (IH _ r _ Hc2) as (c' & Hc' & Hid & Hws & Hbuf);
        [simpl; by rewrite Hk1|].
      exists c'. split; [done|]. split; [done|]. split; [done|].
      rewrite Hbuf. simpl. by rewrite <- app_assoc.
    + rewrite decide_False by (by intros ?).
      apply (IH _ r c Hc1). by rewrite Hk1.
Qed.

(** X13. Where [SimpleVideoProcessor] loses or hoards data.  On a
    registered session whose socket is not open, the non-empty frame that
    fills the batch makes the whole batch disappear: the buffer is cleared
    and nothing is sent.  On a session that is no longer registered nothing
    is ever sent or cleared: every non-empty frame is appended to the
    buffer, which grows without bound. *)
Theorem simple_batch_lost_or_hoarded (s : Simple.state) (r : nat)
    (c : Simple.Client) (data : WsData) (chunks : list WsData) :
  Simple.heap s !! r = Some c ->
  nonempty (toBuffer data) = true ->
  (Simple.clients s !! Simple.id c = Some r ->
   readyState (Simple.ws c) <> OPEN ->
   (4 <= length (Simple.videoBuffer c))%nat ->
   exists c', Simple.heap (Simple.on_message r (Simple.id c) data s) !! r = Some c' /\
     Simple.videoBuffer c' = [] /\ Simple.ws c' = Simple.ws c) /\
  (Simple.clients s !! Simple.id c = None ->
   exists c', Simple.heap (Simple.messages r chunks s) !! r = Some c' /\
     Simple.ws c' = Simple.ws c /\
     Simple.videoBuffer c'
     = Simple.videoBuffer c
       ++ filter (fun b => nonempty b = true) (toBuffer <$> chunks)).
Proof.
  intros Hc Hne. split.
  - intros Hk Hclosed Hlen.
    destruct (simple_on_message r c data s Hc) as [_ Hc1].
    rewrite Hne, Hk, decide_True in Hc1 by done.
    replace (5 <=? S (length (Simple.videoBuffer c)))%nat with true in Hc1
      by (symmetry; apply Nat.leb_le; lia).
    eexists. split; [exact Hc1|]. split; [done|]. simpl.
    destruct (readyState (Simple.ws c)); simpl; congruence.
  - intros Hk.
    destruct (simple_unregistered_grows chunks s r c Hc Hk)
      as (c' & Hc' & _ & Hws & Hbuf).
    by exists c'.
Qed.

(** The theorem on a session with four chunks buffered and a closing
    socket. *)
Lemma simple_batch_lost_or_hoarded_witness :
  let c := Simple.mkClient "c1" (mkWs CLOSING [] 0 false) true 0
             [[Byte.x01]; [Byte.x02]; [Byte.x03]; [Byte.x04]] None in
  let s := Simple.mkState {[ "c1"%string := 0%nat ]} [c] in
  exists c', Simple.heap (Simple.on_message 0 "c1" (DBuffer [Byte.x05]) s) !! 0%nat
             = Some c' /\
    Simple.videoBuffer c' = [] /\ Simple.ws c' = mkWs CLOSING [] 0 false.
Proof.
  intros c s.
  exact (proj1 (simple_batch_lost_or_hoarded s 0%nat c (DBuffer [Byte.x05]) []
                  eq_refl eq_refl)
           eq_refl ltac:(discriminate) ltac:(simpl; lia)).
Defined.

(** ** A second shutdown signal *)

(** X14. [gracefulShutdown] run twice (SIGINT after SIGTERM): the second
    run leaves the service and the http server as the first left them and
    arms both exits once more.  When there is no http server, no exit is
    armed at all, however often it runs. *)
Theorem graceful_shutdown_twice (app : BakCamerasServer) :
  wsService (gracefulShutdown (gracefulShutdown app))
    = wsService (gracefulShutdown app) /\
  server (gracefulShutdown (gracefulShutdown app))
    = server (gracefulShutdown app) /\
  pending (gracefulShutdown (gracefulShutdown app))
    = pending app ++
      match server app with
      | Some _ => [OnServerClosed; ForcedAfter FORCED_EXIT_DELAY;
                   OnServerClosed; ForcedAfter FORCED_EXIT_DELAY]
      | None => []
      end /\
  exitCode (gracefulShutdown (gracefulShutdown app)) = exitCode app.
Proof.
  assert (Hfix : forall svc, close (close svc) = close svc)
    by (intros svc; apply (close_is_final_state svc)).
  unfold gracefulShutdown.
  destruct (wsService app) as [svc|], (server app) as [l|]; simpl;
    rewrite ?Hfix, ?app_nil_r, <- ?app_assoc; done.
Qed.

(** ** What the monitor does to a session it does not keep *)

(** X15. A pong does not outlive the interval: in every state the service
    reaches with the monitor running, a registered session whose pong
    arrives [d] ms after the tick at [t], with [0 <= d < PONG_TIMEOUT], is
    dropped from the registry by the next tick at [t + PING_INTERVAL], its
    alive flag notwithstanding, and its socket, if open, is terminated
    without a new probe. *)
Theorem pong_does_not_outlive_interval (parse : string -> option JsValue)
    (evs : list event) (r : nat) (c : ClientConnection) (t d : Z) :
  heap (run parse evs init) !! r = Some c ->
  clients (run parse evs init) !! id c = Some r ->
  pingInterval (run parse evs init) = true ->
  0 <= d < PONG_TIMEOUT ->
  clients (run parse (evs ++ [Pong r (t + d); PingTick (t + PING_INTERVAL)]) init)
    !! id c = None /\
  exists c',
    heap (run parse (evs ++ [Pong r (t + d); PingTick (t + PING_INTERVAL)]) init) !! r
      = Some c' /\
    isAlive c' = true /\ pings (ws c') = pings (ws c) /\
    (readyState (ws c) = OPEN -> terminated (ws c') = true).
Proof.
  intros Hc Hk Hint Hd. rewrite run_app.
  set (s := run parse evs init) in *.
  pose proof (well_formed_reachable parse evs : well_formed s) as W.
  simpl. unfold id_of. rewrite Hc. simpl. unfold on_pong. rewrite Hk.
  set (s1 := update_client r (set_alive true (t + d)) s).
  assert (W1 : well_formed s1).
  { apply well_formed_update_client; [|done]. intros c' _. split; [done|by left]. }
  assert (Hc1 : heap s1 !! r = Some (set_alive true (t + d) c))
    by (unfold s1; by rewrite update_client_lookup_eq, Hc).
  assert (Hk1 : clients s1 !! id c = Some r)
    by (unfold s1; by rewrite update_client_clients).
  assert (Hint1 : pingInterval s1 = true)
    by (unfold s1; by rewrite update_client_pingInterval).
  destruct (ping_tick_entrywise (t + PING_INTERVAL) s1 W1 Hint1) as (F1 & _).
  destruct (F1 (id c) r _ Hk1 Hc1) as [Hreg Hobj].
  assert (Hsurv : survives (t + PING_INTERVAL) (set_alive true (t + d) c) = false).
  { unfold survives. simpl.
    destruct (t + PING_INTERVAL - (t + d) >? PONG_TIMEOUT) eqn:E.
    - by rewrite andb_false_r.
    - unfold PING_INTERVAL, PONG_TIMEOUT in *. lia. }
  rewrite Hsurv in Hreg. split; [done|].
  eexists. split; [exact Hobj|]. unfold pinged. rewrite Hsurv. simpl.
  destruct (is_open (readyState (ws c))) eqn:Ho; simpl.
  - unfold Ws.terminate. destruct (readyState (ws c)); simpl; try done.
  - split; [done|]. split; [done|]. intros Heq. by rewrite Heq in Ho.
Qed.

(** The theorem on a fresh session: pong 5 ms after the probe. *)
Lemma pong_does_not_outlive_interval_witness :
  clients (run heartbeat_parser
             ([Connection "c1" 40000 (SpawnReturns true); PingTick 60000]
              ++ [Pong 0%nat (60000 + 5); PingTick (60000 + PING_INTERVAL)]) init)
    !! "c1"%string = None.
Proof.
  exact (proj1 (pong_does_not_outlive_interval heartbeat_parser
                  [Connection "c1" 40000 (SpawnReturns true); PingTick 60000] 0%nat
                  (mkClient "c1" (mkWs OPEN [FText (connection_msg "c1")] 1 false)
                            false 40000 (Some 0%nat))
                  60000 5 eq_refl eq_refl eq_refl
                  ltac:(unfold PONG_TIMEOUT; lia))).
Defined.

(** X16. The monitor never tears a transcoder down: in every state the
    service reaches with the monitor running, when a tick does not keep a
    registered session, the tick and the ['close'] event of the session's
    socket that follows leave every process as it was (no signal, no
    timeout armed), while the session is gone from the registry. *)
Theorem monitor_eviction_never_signals (parse : string -> option JsValue)
    (evs : list event) (r : nat) (c : ClientConnection) (now : Z) :
  heap (run parse evs init) !! r = Some c ->
  clients (run parse evs init) !! id c = Some r ->
  pingInterval (run parse evs init) = true ->
  survives now c = false ->
  clients (run parse (evs ++ [PingTick now; WsClose r]) init) !! id c = None /\
  procs (run parse (evs ++ [PingTick now; WsClose r]) init)
    = procs (run parse evs init) /\
  timers (run parse (evs ++ [PingTick now; WsClose r]) init)
    = timers (run parse evs init).
Proof.
  intros Hc Hk Hint Hsurv. rewrite run_app.
  set (s := run parse evs init) in *.
  pose proof (well_formed_reachable parse evs : well_formed s) as W.
  destruct (ping_tick_entrywise now s W Hint) as (F1 & _).
  destruct (F1 (id c) r c Hk Hc) as [Hreg Hobj]. rewrite Hsurv in Hreg.
  assert (Htimers : timers (ping_tick now s) = timers s).
  { unfold ping_tick. rewrite Hint.
    apply (forEach_invariant (fun acc => timers acc = timers s)); [done|].
    intros r0 k acc Hacc _. by rewrite ping_client_timers. }
  change (run parse [PingTick now; WsClose r] s)
    with (step parse (WsClose r) (ping_tick now s)).
  simpl. unfold id_of. rewrite Hobj. simpl.
  assert (Hid : id (pinged now c) = id c).
  { unfold pinged. destruct (negb (is_open (readyState (ws c)))); [done|].
    by destruct (survives now c). }
  rewrite Hid, cleanupClient_unregistered
    by (by rewrite update_client_clients).
  rewrite update_client_clients, update_client_procs, update_client_timers.
  split; [done|]. split; [apply ping_tick_procs|done].
Qed.

(** The theorem on a session that missed a probe. *)
Lemma monitor_eviction_never_signals_witness :
  procs (run heartbeat_parser
           ([Connection "c1" 40000 (SpawnReturns true); PingTick 60000]
            ++ [PingTick 120000; WsClose 0%nat]) init)
  = [mkProc 0 false true false [] []].
Proof.
  exact (proj1 (proj2 (monitor_eviction_never_signals heartbeat_parser
           [Connection "c1" 40000 (SpawnReturns true); PingTick 60000] 0%nat
           (mkClient "c1" (mkWs OPEN [FText (connection_msg "c1")] 1 false)
                     false 40000 (Some 0%nat))
           120000 eq_refl eq_refl eq_refl eq_refl))).
Defined.
